(** * The vuex-orm GraphQL plugin: query synthesis and data transformation

    A shallow embedding of the plugin's query builder ([QueryBuilder],
    src/queryBuilder.ts), of its model wrapper ([Model]) and of the plugin
    class, in the revision that delegates to the query builder (module
    [VuexORMApollo]) and in the earlier revision that builds queries
    itself (module [Monolith]).

    JavaScript data is a tagged union [value]; objects and [Map]s are
    association lists in insertion order, since the code iterates
    [Object.keys] and the order of the keys shows in the generated text;
    the registry of models, which is only looked up, is a [gmap].  Code
    that can throw returns an [outcome].  The recursion of [buildField]
    through the model graph is not structural and runs on fuel.
    Asynchronous methods are state transformers over a [World]: the
    store and the logs of requests and dispatched actions.

    The collaborators the plugin is given (inflection, graphql-tag, the
    Apollo client, the store) are type classes; the properties hold for
    every instance, and [Fixtures] has small instances for the examples.

    Definitions come first, then the vocabulary of the properties, then
    the properties. *)

From Stdlib Require Import ZArith String Ascii List DecimalString DecimalPos Lia.
From stdpp Require Import gmap strings list.

(** ** Outcomes of JavaScript code *)

Set Warnings "-register-all".

(** A JavaScript number is modelled when it is [NaN] or an integer that
    a double holds and that prints in decimal notation (below [10^21] in
    size): the plugin handles ids and counters.  Every integer up to
    [2^53] in size is one.  Fractions and infinities are outside the
    model. *)
Inductive value : Type :=
| VUndefined
| VNull
| VBool (b : bool)
| VNum (n : Z)
| VNaN
| VStr (s : string)
| VArr (items : list value)
| VObj (props : list (string * value)).

(** A plain object: its own enumerable properties, each key once, in
    property order.  (The runtime lists keys that are array indices
    first; an object with such keys is written in that order.) *)
Abbreviation object := (list (string * value)).

(** What a [throw] carries: a [TypeError] of the runtime, an [Error] built
    by the plugin with its message, or the opaque reason a collaborator
    (transport, parser, store) rejected with. *)
Inductive error : Type :=
| TypeError
| Error (message : string)
| Rejected (reason : value).

(** [OutOfFuel] is not a JavaScript result: it marks a run that had not
    returned when the fuel of the model ran out. *)
Inductive outcome (A : Type) : Type :=
| Ok (a : A)
| Throw (e : error)
| OutOfFuel.

Arguments Ok {A} a.
Arguments Throw {A} e.
Arguments OutOfFuel {A}.

#[global] Instance outcome_ret : MRet outcome := fun A a => Ok a.
#[global] Instance outcome_bind : MBind outcome := fun A B f m =>
  match m with
  | Ok a => f a
  | Throw e => Throw e
  | OutOfFuel => OutOfFuel
  end.
#[global] Instance outcome_fmap : FMap outcome := fun A B f m =>
  match m with
  | Ok a => Ok (f a)
  | Throw e => Throw e
  | OutOfFuel => OutOfFuel
  end.

(** [xs.forEach(x => { acc = step acc x })] where the step may throw. *)
Fixpoint forEach {A S : Type} (step : S -> A -> outcome S) (xs : list A) (acc : S)
  : outcome S :=
  match xs with
  | [] => Ok acc
  | x :: xs' => acc' ← step acc x; forEach step xs' acc'
  end.

(** ** The JavaScript runtime *)

Definition nl : string := String (ascii_of_nat 10) EmptyString.
Definition dquote : string := String (ascii_of_nat 34) EmptyString.
Definition backslash : string := String (ascii_of_nat 92) EmptyString.

Fixpoint spaces (n : nat) : string :=
  match n with
  | O => EmptyString
  | S n' => String " " (spaces n')
  end.

(** A line break followed by [n] blanks, as in a template literal. *)
Definition indent (n : nat) : string := nl +:+ spaces n.

Definition string_of_Z (n : Z) : string := NilZero.string_of_int (Z.to_int n).
Definition string_of_nat (n : nat) : string := NilZero.string_of_uint (Nat.to_uint n).

Definition truthy (v : value) : bool :=
  match v with
  | VUndefined | VNull | VNaN => false
  | VBool b => b
  | VNum n => negb (n =? 0)%Z
  | VStr s => negb (String.eqb s "")
  | VArr _ | VObj _ => true
  end.

Definition typeof (v : value) : string :=
  match v with
  | VUndefined => "undefined"
  | VNull | VArr _ | VObj _ => "object"
  | VBool _ => "boolean"
  | VNum _ | VNaN => "number"
  | VStr _ => "string"
  end.

(** [v instanceof Array] and [v instanceof Object]. *)
Definition instanceof_Array (v : value) : bool :=
  match v with VArr _ => true | _ => false end.

Definition instanceof_Object (v : value) : bool :=
  match v with VArr _ | VObj _ => true | _ => false end.

(** [o[key]] on a plain object: [undefined] for a missing property. *)
Fixpoint obj_get (o : object) (key : string) : value :=
  match o with
  | [] => VUndefined
  | (k, v) :: o' => if String.eqb k key then v else obj_get o' key
  end.

(** [o[key] = v]: an existing property keeps its place. *)
Fixpoint obj_set (o : object) (key : string) (v : value) : object :=
  match o with
  | [] => [(key, v)]
  | (k, x) :: o' =>
      if String.eqb k key then (k, v) :: o' else (k, x) :: obj_set o' key v
  end.

Definition obj_has (o : object) (key : string) : bool :=
  existsb (fun kv => String.eqb (fst kv) key) o.

(** A canonical array index: the decimal digits of a natural number. *)
Fixpoint digits_to_nat (s : string) (acc : nat) : option nat :=
  match s with
  | EmptyString => Some acc
  | String c s' =>
      let d := nat_of_ascii c in
      if (48 <=? d)%nat && (d <=? 57)%nat
      then digits_to_nat s' (10 * acc + (d - 48))
      else None
  end.

Definition array_index (key : string) : option nat :=
  match key with
  | EmptyString => None
  | _ =>
      match digits_to_nat key 0 with
      | Some n => if String.eqb (string_of_nat n) key then Some n else None
      | None => None
      end
  end.

Fixpoint chars (s : string) : list value :=
  match s with
  | EmptyString => []
  | String c s' => VStr (String c EmptyString) :: chars s'
  end.

(** [v[key]].  Reading a property of [null] or [undefined] throws; arrays
    and strings answer their indices.  ([length] is not modelled: the
    plugin reads only [nodes], [__type], [id] and enumerated keys.) *)
Definition get_prop (v : value) (key : string) : outcome value :=
  match v with
  | VUndefined | VNull => Throw TypeError
  | VObj o => Ok (obj_get o key)
  | VArr xs =>
      Ok (match array_index key with
          | Some i => nth i xs VUndefined
          | None => VUndefined
          end)
  | VStr s =>
      Ok (match array_index key with
          | Some i => nth i (chars s) VUndefined
          | None => VUndefined
          end)
  | _ => Ok VUndefined
  end.

(** [Object.keys(v)]. *)
Definition Object_keys (v : value) : outcome (list string) :=
  match v with
  | VUndefined | VNull => Throw TypeError
  | VObj o => Ok (map fst o)
  | VArr xs => Ok (map string_of_nat (seq 0 (length xs)))
  | VStr s => Ok (map string_of_nat (seq 0 (String.length s)))
  | _ => Ok []
  end.

(** The string a value turns into inside a template literal or when it
    is added to a string. *)
Fixpoint ToString (v : value) : string :=
  match v with
  | VUndefined => "undefined"
  | VNull => "null"
  | VBool true => "true"
  | VBool false => "false"
  | VNum n => string_of_Z n
  | VNaN => "NaN"
  | VStr s => s
  | VArr xs =>
      String.concat ","
        (map (fun x => match x with
                       | VUndefined | VNull => EmptyString
                       | _ => ToString x
                       end) xs)
  | VObj _ => "[object Object]"
  end.

Definition hex_digit (n : nat) : string :=
  String (ascii_of_nat (if (n <? 10)%nat then 48 + n else 87 + n)) EmptyString.

(** One character of a JSON string literal. *)
Definition json_escape (c : ascii) : string :=
  let n := nat_of_ascii c in
  if (n =? 34)%nat then backslash +:+ dquote
  else if (n =? 92)%nat then backslash +:+ backslash
  else if (n =? 8)%nat then backslash +:+ "b"
  else if (n =? 9)%nat then backslash +:+ "t"
  else if (n =? 10)%nat then backslash +:+ "n"
  else if (n =? 12)%nat then backslash +:+ "f"
  else if (n =? 13)%nat then backslash +:+ "r"
  else if (n <? 32)%nat
       then backslash +:+ "u00" +:+ hex_digit (n / 16) +:+ hex_digit (n mod 16)
  else String c EmptyString.

Fixpoint json_quote_body (s : string) : string :=
  match s with
  | EmptyString => EmptyString
  | String c s' => json_escape c +:+ json_quote_body s'
  end.

Definition json_quote (s : string) : string :=
  dquote +:+ json_quote_body s +:+ dquote.

(** [JSON.stringify(v)] for a value that is not [undefined]: properties
    holding [undefined] are left out, array holes and [NaN] print [null]. *)
Fixpoint JSON_stringify (v : value) : string :=
  match v with
  | VUndefined => "undefined"
  | VNull | VNaN => "null"
  | VBool true => "true"
  | VBool false => "false"
  | VNum n => string_of_Z n
  | VStr s => json_quote s
  | VArr xs =>
      "[" +:+ String.concat ","
        (map (fun x => match x with
                       | VUndefined => "null"
                       | _ => JSON_stringify x
                       end) xs) +:+ "]"
  | VObj o =>
      "{" +:+ String.concat ","
        ((fix members (o : object) : list string :=
            match o with
            | [] => []
            | (_, VUndefined) :: o' => members o'
            | (k, x) :: o' =>
                (json_quote k +:+ ":" +:+ JSON_stringify x) :: members o'
            end) o) +:+ "}"
  end.

Definition is_space (c : ascii) : bool :=
  let n := nat_of_ascii c in
  (n =? 32)%nat || ((9 <=? n)%nat && (n <=? 13)%nat).

Fixpoint skip_spaces (s : string) : string :=
  match s with
  | String c s' => if is_space c then skip_spaces s' else s
  | EmptyString => EmptyString
  end.

Definition digit_value (c : ascii) : option Z :=
  let n := nat_of_ascii c in
  if (48 <=? n)%nat && (n <=? 57)%nat then Some (Z.of_nat (n - 48))
  else if (97 <=? n)%nat && (n <=? 122)%nat then Some (Z.of_nat (n - 87))
  else if (65 <=? n)%nat && (n <=? 90)%nat then Some (Z.of_nat (n - 55))
  else None.

(** The longest prefix of digits of the radix, read as a number. *)
Fixpoint parse_digits (radix : Z) (s : string) (acc : option Z) : option Z :=
  match s with
  | EmptyString => acc
  | String c s' =>
      match digit_value c with
      | Some d =>
          if (d <? radix)%Z
          then parse_digits radix s' (Some (radix * default 0%Z acc + d)%Z)
          else acc
      | None => acc
      end
  end.

(** The double nearest to an integer, a tie going to the even
    significand of 53 bits: the number an integer that is read or computed
    becomes.  Integers up to [2^53] in size are doubles themselves.  (From
    [2^1024] on the double is an infinity, which is outside the model.) *)
Definition to_double (n : Z) : Z :=
  let a := Z.abs n in
  if (a <=? 9007199254740992)%Z then n
  else
    let e := (Z.log2 a - 52)%Z in
    let q := Z.shiftr a e in
    let r := (a - Z.shiftl q e)%Z in
    let half := Z.shiftl 1 (e - 1) in
    let q' :=
      if (r <? half)%Z then q
      else if (half <? r)%Z then (q + 1)%Z
      else if Z.even q then q else (q + 1)%Z in
    (Z.sgn n * Z.shiftl q' e)%Z.

(** [parseInt(v, 0)]: radix 0 reads decimal, or hexadecimal after [0x].
    The digits are read as an integer, and the result is the double
    nearest to it.  (Past 20 significant decimal digits the runtime may
    round the digits before; such results are [10^20] and more.) *)
Definition parseInt (v : value) : value :=
  let s := skip_spaces (ToString v) in
  let '(negative, s) :=
    match s with
    | String "-" s' => (true, s')
    | String "+" s' => (false, s')
    | _ => (false, s)
    end in
  let '(radix, s) :=
    match s with
    | String "0" (String "x" s') | String "0" (String "X" s') => (16%Z, s')
    | _ => (10%Z, s)
    end in
  match parse_digits radix s None with
  | Some n => VNum (to_double (if negative : bool then - n else n))
  | None => VNaN
  end.

(** [s.endsWith(suffix)]. *)
Definition endsWith (s suffix : string) : bool :=
  let n := String.length s in
  let k := String.length suffix in
  (k <=? n)%nat && String.eqb (substring (n - k) k s) suffix.

(** ** Collaborators *)

(** The [inflection] package: English singular and plural forms. *)
Class Inflection : Type := {
  singularize : string -> string;
  pluralize : string -> string
}.

(** [graphql-tag]: parses the text of a document, or throws. *)
Class GraphQLTag : Type := {
  Document : Type;
  gql : string -> outcome Document
}.

(** Modelled as a parameter: the interface [Arguments] is declared in
    ./interfaces, which is not among the sources.  [buildArguments] reads
    an argument map as a plain object ([Object.keys(args)], [args[key]]);
    [buildQuery] calls a method [args.get(name)], whose behaviour is given
    by this class. *)
Class ArgumentsInterface : Type := {
  Arguments_get : object -> string -> outcome value
}.

(** ** Model: the plugin's wrapper around a store entity *)

(** A field of a store entity: the name of the class it is an instance of
    ([Attr], [BelongsTo], [HasMany], ...) and the entity it relates to. *)
Record Field : Type := {
  constructor_name : string;
  related : option string
}.

Record ORMModel : Type := {
  entity : string;
  ORM_fields : list (string * Field)
}.

(** [Map<string, V>]: entries in insertion order. *)
Fixpoint Map_set {V : Type} (m : list (string * V)) (key : string) (v : V)
  : list (string * V) :=
  match m with
  | [] => [(key, v)]
  | (k, x) :: m' =>
      if String.eqb k key then (k, v) :: m' else (k, x) :: Map_set m' key v
  end.

Definition Map_has {V : Type} (m : list (string * V)) (key : string) : bool :=
  existsb (fun kv => String.eqb (fst kv) key) m.

Record Model : Type := {
  singularName : string;
  pluralName : string;
  baseModel : ORMModel;
  fields : list (string * Field)
}.

(** The constructor of [Model]. *)
Definition new_Model `{Inflection} (base : ORMModel) : Model :=
  {| singularName := singularize (entity base);
     pluralName := pluralize (entity base);
     baseModel := base;
     fields :=
       fold_left (fun m kv => Map_set m (fst kv) (snd kv)) (ORM_fields base) [] |}.

(** Names of the fields a query asks for. *)
Definition getQueryFields (m : Model) : list string :=
  fold_left
    (fun acc kv =>
       let '(name, field) := kv in
       if String.eqb (constructor_name field) "Attr" && negb (endsWith name "Id")
       then acc ++ [name]
       else acc)
    (fields m) [].

(** All relations of the model. *)
Definition getRelations (m : Model) : list (string * Field) :=
  fold_left
    (fun relations kv =>
       let '(name, field) := kv in
       if negb (String.eqb (constructor_name field) "Attr")
       then Map_set relations name field
       else relations)
    (fields m) [].

(** A record of the store: an instance of a store entity.  [$self().entity]
    names the entity; [props] are the instance's own properties. *)
Record StoreRecord : Type := {
  self_entity : string;
  props : object
}.

(** The guard of [buildRelationsQuery]:
    [!rootModel || name !== rootModel.singularName && name !== rootModel.pluralName]. *)
Definition follows (rootModel : option Model) (name : string) : bool :=
  match rootModel with
  | None => true
  | Some root =>
      negb (String.eqb name (singularName root))
      && negb (String.eqb name (pluralName root))
  end.

(** ** QueryBuilder (src/queryBuilder.ts) *)

Module QueryBuilder.
Section QueryBuilder.
Context `{Inflection} `{GraphQLTag} `{ArgumentsInterface}.

(** The constructor's [getModel]; the logger only prints and is left out. *)
Variable getModel : Model + string -> outcome Model.

(** [typeof value === 'object' && value.__type]. *)
Definition object_type (v : value) : outcome value :=
  if String.eqb (typeof v) "object"
  then get_prop v "__type"
  else Ok (VBool false).

(** The callback of [Object.keys(args).forEach] in [buildArguments]; the
    state is [(returnValue, first)]. *)
Definition buildArguments_step (args : object) (signature valuesAsVariables : bool)
    (state : string * bool) (key : string) : outcome (string * bool) :=
  let '(returnValue, first) := state in
  let value := obj_get args key in
  if negb (instanceof_Array value || String.eqb key "id") then
    typeOrValue ←
      (if signature then
         type ← object_type value;
         if truthy type
         then Ok (ToString type +:+ "Input!")
         else Ok (if String.eqb (typeof value) "number" then "Number!" else "String!")
       else if valuesAsVariables then
         Ok ("$" +:+ key)
       else
         type ← object_type value;
         if truthy type
         then Ok (JSON_stringify value)
         else Ok (if String.eqb (typeof value) "number"
                  then ToString value
                  else dquote +:+ ToString value +:+ dquote));
    Ok (returnValue +:+ (if first then "" else ", ")
          +:+ ((if signature then "$" else "") +:+ key) +:+ ": " +:+ typeOrValue,
        false)
  else Ok (returnValue, first).

Definition buildArguments (args : option object) (signature valuesAsVariables : bool)
  : outcome string :=
  match args with
  | Some args =>
      '(returnValue, first) ←
        forEach (buildArguments_step args signature valuesAsVariables)
                (map fst args) (EmptyString, true);
      Ok (if negb first then "(" +:+ returnValue +:+ ")" else returnValue)
  | None => Ok EmptyString
  end.

Definition transformOutgoingData (data : StoreRecord) : outcome object :=
  model ← getModel (inr (self_entity data));
  let relations := getRelations model in
  Ok (fold_left
        (fun returnValue key =>
           let value := obj_get (props data) key in
           if negb (Map_has relations key) && negb (String.eqb key "id")
           then obj_set returnValue key value
           else returnValue)
        (map fst (props data)) []).

(** [data[key].nodes], transformed when it is truthy: the look-up goes
    through the properties of [data[key]], so that the recursive call
    [self] is on a part of the payload. *)
Definition transformed_nodes (self : value -> bool -> outcome value)
  : object -> option (outcome value) :=
  fix nodes (o : object) : option (outcome value) :=
    match o with
    | [] => None
    | (k, x) :: o' =>
        if String.eqb k "nodes"
        then if truthy x then Some (self x true) else None
        else nodes o'
    end.

(** The callback of [Object.keys(data).forEach] in [transformIncomingData],
    run over the properties of [data] in order, each with its value
    [data[key]]. *)
Definition transformed_properties (self : value -> bool -> outcome value)
  : object -> object -> outcome object :=
  fix each (entries result : object) {struct entries} : outcome object :=
    match entries with
    | [] => Ok result
    | (key, v) :: entries' =>
        if truthy v then
          match v with
          | VObj vo =>
              match transformed_nodes self vo with
              | Some transformed =>
                  x ← transformed;
                  each entries' (obj_set result (pluralize key) x)
              | None =>
                  x ← self v true;
                  each entries' (obj_set result (singularize key) x)
              end
          | VArr _ =>
              x ← self v true;
              each entries' (obj_set result (singularize key) x)
          | _ =>
              if String.eqb key "id"
              then each entries' (obj_set result key (parseInt v))
              else each entries' (obj_set result key v)
          end
        else each entries' result
    end.

(** [transformIncomingData]; [recursiveCall] only silences the logger.
    An array is mapped; an object is walked property by property;
    [Object.keys] throws on [null] and [undefined], finds no key in a
    number or a boolean, and finds the indices of a string's characters. *)
Fixpoint transformIncomingData (data : value) (recursiveCall : bool) {struct data}
  : outcome value :=
  match data with
  | VArr items => VArr <$> mapM (fun d => transformIncomingData d true) items
  | VObj o =>
      VObj <$>
      transformed_properties (fun d r => transformIncomingData d r) o []
  | VStr s =>
      Ok (VObj (combine (map string_of_nat (seq 0 (String.length s))) (chars s)))
  | VUndefined | VNull => Throw TypeError
  | VBool _ | VNum _ | VNaN => Ok (VObj [])
  end.

(** [buildRelationsQuery], with the [buildField] it calls as a parameter. *)
Definition buildRelationsQuery_with
    (buildField : Model + string -> bool -> option object -> bool ->
                  option Model -> option string -> outcome string)
    (model : Model) (rootModel : option Model) : outcome (list string) :=
  forEach
    (fun relationQueries kv =>
       let '(name, field) := kv in
       if follows rootModel name then
         let multiple := negb (String.eqb (constructor_name field) "BelongsTo") in
         q ← buildField (inr name) multiple None false
               (Some (default model rootModel)) None;
         Ok (relationQueries ++ [q])
       else Ok relationQueries)
    (getRelations model) [].

(** [name ? name : fallback]. *)
Definition name_or (name : option string) (fallback : string) : string :=
  match name with
  | Some n => if String.eqb n "" then fallback else n
  | None => fallback
  end.

(** The template literal [fields] of [buildField]. *)
Definition fields_text (model : Model) (relations : list string) : string :=
  indent 6 +:+ String.concat " " (getQueryFields model)
  +:+ indent 6 +:+ String.concat "," relations
  +:+ indent 4.

(** The template literal returned when [multiple] is set. *)
Definition nodes_field (name params fields : string) : string :=
  indent 8 +:+ name +:+ params +:+ " {"
  +:+ indent 10 +:+ "nodes {"
  +:+ indent 12 +:+ fields
  +:+ indent 10 +:+ "}"
  +:+ indent 8 +:+ "}"
  +:+ indent 6.

(** The template literal returned otherwise. *)
Definition record_field (name params fields : string) : string :=
  indent 8 +:+ name +:+ params +:+ " {"
  +:+ indent 10 +:+ fields
  +:+ indent 8 +:+ "}"
  +:+ indent 6.

Fixpoint buildField (fuel : nat) (model : Model + string) (multiple : bool)
    (args : option object) (withVars : bool) (rootModel : option Model)
    (name : option string) {struct fuel} : outcome string :=
  match fuel with
  | O => OutOfFuel
  | S fuel' =>
      model ← getModel model;
      params ← buildArguments args false withVars;
      relations ← buildRelationsQuery_with (buildField fuel') model rootModel;
      let fields := fields_text model relations in
      if multiple
      then Ok (nodes_field (name_or name (pluralName model)) params fields)
      else Ok (record_field (name_or name (singularName model)) params fields)
  end.

Definition buildRelationsQuery (fuel : nat) (model : Model) (rootModel : option Model)
  : outcome (list string) :=
  buildRelationsQuery_with (buildField fuel) model rootModel.

Definition buildQuery (fuel : nat) (modelName : string) (args : option object)
  : outcome Document :=
  multiple ←
    match args with
    | Some a => id ← Arguments_get a "id"; Ok (negb (truthy id))
    | None => Ok true
    end;
  field ← buildField fuel (inr modelName) multiple args false None None;
  gql ("{ " +:+ field +:+ " }").

End QueryBuilder.
End QueryBuilder.

(** ** The plugin's surroundings: transport and store *)

(** A call of the store's [dispatch]: the name of the action and its
    payload. *)
Record Action : Type := {
  action_name : string;
  payload : value
}.

(** The host store: its state, what an action does to it (and what the
    promise of [dispatch] settles to), and the getter [find]. *)
Class Store : Type := {
  store_state : Type;
  dispatch_action : Action -> store_state -> outcome value * store_state;
  find : store_state -> ORMModel -> value -> option StoreRecord
}.

(** The Apollo client: [query({ query })] and [mutate({ mutation,
    variables })].  The answer is [response.data], or the reason of the
    rejection. *)
Class ApolloClient `{GraphQLTag} : Type := {
  apollo_query : Document -> outcome value;
  apollo_mutate : Document -> object -> outcome value
}.

(** A request handed to the Apollo client. *)
Inductive Request `{GraphQLTag} : Type :=
| Query (query : Document)
| Mutate (mutation : Document) (variables : object).

(** What an action handler can touch: the store, and the logs of the
    requests sent and of the actions dispatched, oldest first. *)
Record World `{GraphQLTag} `{Store} : Type := {
  store : store_state;
  requests : list Request;
  dispatched : list Action
}.

(** An asynchronous method: it runs to its end on a world, and either
    resolves, rejects ([Throw]) or runs out of fuel. *)
Record Async `{GraphQLTag} `{Store} (A : Type) : Type := {
  run : World -> outcome A * World
}.

Arguments run {_ _ A} _ _.

#[global] Instance Async_ret `{GraphQLTag} `{Store} : MRet Async :=
  fun A a => {| run := fun w => (Ok a, w) |}.

#[global] Instance Async_bind `{GraphQLTag} `{Store} : MBind Async :=
  fun A B f m =>
    {| run := fun w =>
         match run m w with
         | (Ok a, w') => run (f a) w'
         | (Throw e, w') => (Throw e, w')
         | (OutOfFuel, w') => (OutOfFuel, w')
         end |}.

(** Synchronous code inside an asynchronous method. *)
Definition sync `{GraphQLTag} `{Store} {A : Type} (r : outcome A) : Async A :=
  {| run := fun w => (r, w) |}.

(** [await this.apolloClient.query({ query })]. *)
Definition await_query `{ApolloClient} `{Store} (query : Document) : Async value :=
  {| run := fun w =>
       (apollo_query query,
        {| store := store w;
           requests := requests w ++ [Query query];
           dispatched := dispatched w |}) |}.

(** [await this.apolloClient.mutate({ mutation, variables })]. *)
Definition await_mutate `{ApolloClient} `{Store} (mutation : Document)
    (variables : object) : Async value :=
  {| run := fun w =>
       (apollo_mutate mutation variables,
        {| store := store w;
           requests := requests w ++ [Mutate mutation variables];
           dispatched := dispatched w |}) |}.

(** [await dispatch(name, payload)]. *)
Definition dispatch `{GraphQLTag} `{Store} (name : string) (payload : value)
  : Async value :=
  {| run := fun w =>
       let a := {| action_name := name; payload := payload |} in
       let '(r, s) := dispatch_action a (store w) in
       (r, {| store := s;
              requests := requests w;
              dispatched := dispatched w ++ [a] |}) |}.

(** A promise that is started and never awaited: its effects happen, its
    rejection reaches nobody. *)
Definition unawaited `{GraphQLTag} `{Store} {A : Type} (m : Async A) : Async unit :=
  {| run := fun w => (Ok tt, snd (run m w)) |}.

(** The store's getter [find], read in the current world. *)
Definition getters_find `{GraphQLTag} `{Store} (base : ORMModel) (id : value)
  : Async (option StoreRecord) :=
  {| run := fun w => (Ok (find (store w) base id), w) |}.

(** ** VuexORMApollo, the plugin class that delegates to QueryBuilder *)

Module VuexORMApollo.
Section VuexORMApollo.
Context `{Inflection} `{ApolloClient} `{ArgumentsInterface} `{Store}.

(** [this.models]. *)
Variable models : gmap string Model.

(** Modelled as a parameter: the plugin calls
    [this.queryBuilder.buildMutation(model, id, action)], which the
    revision of src/queryBuilder.ts among the sources does not define. *)
Variable buildMutation : Model -> value -> string -> outcome Document.

(** The message interpolates [model] after it was overwritten by the
    failed lookup, hence [undefined]. *)
Definition getModel (model : Model + string) : outcome Model :=
  match model with
  | inl m => Ok m
  | inr name =>
      match models !! singularize name with
      | Some m => Ok m
      | None => Throw (Error "No such model undefined!")
      end
  end.

Definition apolloRequest (query : Document) : Async value :=
  data ← await_query query;
  sync (QueryBuilder.transformIncomingData data false).

(** The callbacks of [forEach] are asynchronous and nobody awaits them. *)
Definition insertData (data : value) : Async unit :=
  keys ← sync (Object_keys data);
  (fix each (keys : list string) : Async unit :=
     match keys with
     | [] => mret tt
     | key :: keys' =>
         item ← sync (get_prop data key);
         _ ← unawaited (dispatch "insertOrUpdate" (VObj [("data", item)]));
         each keys'
     end) keys.

Definition updateData (data : value) (id : value) : Async value :=
  keys ← sync (Object_keys data);
  data ← sync (get_prop data (hd "undefined" keys));
  let data :=
    match data with
    | VArr items => nth 0 items VUndefined
    | _ => data
    end in
  dispatch "update" (VObj [("where", id); ("data", data)]).

Definition mutate (action : string) (data : option StoreRecord) (model : Model)
  : Async value :=
  match data with
  | Some data =>
      let id :=
        if String.eqb action "create" then VUndefined else obj_get (props data) "id" in
      query ← sync (buildMutation model id action);
      outgoing ← sync (QueryBuilder.transformOutgoingData getModel data);
      let variables := [(singularName model, VObj outgoing)] in
      let variables := if truthy id then obj_set variables "id" id else variables in
      response ← await_mutate query variables;
      newData ← sync (QueryBuilder.transformIncomingData response true);
      updateData newData (obj_get (props data) "id")
  | None => mret VUndefined
  end.

Definition fetch (fuel : nat) (name : string) (filter : option object) : Async unit :=
  query ← sync (QueryBuilder.buildQuery getModel fuel name filter);
  data ← apolloRequest query;
  insertData data.

Definition persist (name : string) (id : value) : Async (option StoreRecord) :=
  model ← sync (getModel (inr name));
  data ← getters_find (baseModel model) id;
  model' ← sync (getModel (inr name));
  _ ← mutate "create" data model';
  getters_find (baseModel model) id.

Definition push (name : string) (data : option StoreRecord) : Async value :=
  model ← sync (getModel (inr name));
  mutate "update" data model.

Definition destroy (name : string) (id : value) : Async unit :=
  model ← sync (getModel (inr name));
  if truthy id then
    query ← sync (buildMutation model id "delete");
    _ ← await_mutate query [("id", id)];
    mret tt
  else mret tt.

End VuexORMApollo.
End VuexORMApollo.

(** [collectModels]: every entity of the database, wrapped and filed under
    its singular name. *)
Definition collectModels `{Inflection} (entities : list ORMModel) : gmap string Model :=
  fold_left
    (fun models base => let model := new_Model base in
                        <[singularName model := model]> models)
    entities ∅.

(** ** Monolith: the earlier plugin class, which builds queries itself *)

Module Monolith.
Section Monolith.
Context `{Inflection} `{ApolloClient} `{Store}.

Variable models : gmap string Model.

Definition getModel (modelName : string) : outcome Model :=
  match models !! singularize modelName with
  | Some model => Ok model
  | None => Throw (Error ("No such model " +:+ modelName +:+ "!"))
  end.

(** The same body as [QueryBuilder.transformIncomingData], without its
    logging; every call is as good as a recursive one. *)
Definition transformIncomingData (data : value) : outcome value :=
  QueryBuilder.transformIncomingData data true.

Definition buildRelationsQuery_with
    (buildField : string -> bool -> option object -> option Model -> outcome string)
    (model : Model) (rootModel : option Model) : outcome (list string) :=
  forEach
    (fun relationQueries kv =>
       let '(name, field) := kv in
       if follows rootModel name then
         let multiple := negb (String.eqb (constructor_name field) "BelongsTo") in
         q ← buildField name multiple None (Some (default model rootModel));
         Ok (relationQueries ++ [q])
       else Ok relationQueries)
    (getRelations model) [].

(** [filter && filter.id]. *)
Definition filter_id (filter : option object) : value :=
  match filter with
  | Some f => obj_get f "id"
  | None => VUndefined
  end.

(** [params] of [buildField]: [(id: ...)] when the filter has a truthy id. *)
Definition id_params (filter : option object) : string :=
  if truthy (filter_id filter)
  then "(id: " +:+ ToString (filter_id filter) +:+ ")"
  else EmptyString.

(** The template literal returned when [multiple] is set. *)
Definition nodes_field (model : Model) (params : string) (relations : list string)
  : string :=
  pluralName model +:+ params +:+ " {"
  +:+ indent 16 +:+ "nodes {"
  +:+ indent 20 +:+ String.concat ", " (getQueryFields model)
  +:+ indent 20 +:+ String.concat "," relations
  +:+ indent 16 +:+ "}"
  +:+ indent 12 +:+ "}".

(** The template literal returned otherwise. *)
Definition record_field (model : Model) (params : string) (relations : list string)
  : string :=
  singularName model +:+ params +:+ " {"
  +:+ indent 16 +:+ String.concat ", " (getQueryFields model)
  +:+ indent 16 +:+ String.concat "," relations
  +:+ indent 12 +:+ "}".

Fixpoint buildField (fuel : nat) (modelName : string) (multiple : bool)
    (filter : option object) (rootModel : option Model) {struct fuel}
  : outcome string :=
  match fuel with
  | O => OutOfFuel
  | S fuel' =>
      model ← getModel modelName;
      let params := id_params filter in
      relations ← buildRelationsQuery_with (buildField fuel') model rootModel;
      if multiple
      then Ok (nodes_field model params relations)
      else Ok (record_field model params relations)
  end.

Definition buildRelationsQuery (fuel : nat) (model : Model) (rootModel : option Model)
  : outcome (list string) :=
  buildRelationsQuery_with (buildField fuel) model rootModel.

Definition buildQuery (fuel : nat) (modelName : string) (filter : option object)
  : outcome Document :=
  let multiple := negb (truthy (filter_id filter)) in
  field ← buildField fuel modelName multiple filter None;
  gql ("{ " +:+ field +:+ " }").

Definition apolloRequest (query : Document) : Async value :=
  data ← await_query query;
  sync (transformIncomingData data).

(** [dispatch('insert', ...)] is called and not awaited. *)
Definition storeData (data : value) : Async unit :=
  keys ← sync (Object_keys data);
  (fix each (keys : list string) : Async unit :=
     match keys with
     | [] => mret tt
     | key :: keys' =>
         item ← sync (get_prop data key);
         _ ← unawaited (dispatch "insert" (VObj [("data", item)]));
         each keys'
     end) keys.

Definition fetch (fuel : nat) (name : string) (filter : option object) : Async unit :=
  let filter :=
    match filter with
    | Some [] => None
    | _ => filter
    end in
  query ← sync (buildQuery fuel name filter);
  data ← apolloRequest query;
  storeData data.

End Monolith.
End Monolith.

(** ** Fixtures: collaborators and model graphs for the examples *)

Module Fixtures.

(** Regular English nouns: the plural adds an [s], the singular drops
    it.  On the entity names used below this is what the [inflection]
    package answers. *)
Definition regular_nouns : Inflection :=
  {| singularize := fun s =>
       if endsWith s "s" then substring 0 (String.length s - 1) s else s;
     pluralize := fun s => if endsWith s "s" then s else s +:+ "s" |}.

(** A parser that answers the text it was given. *)
Definition source_text : GraphQLTag :=
  {| Document := string; gql := fun text => Ok text |}.

(** [args.get(name)] read as the property [args[name]]. *)
Definition get_reads_property : ArgumentsInterface :=
  {| Arguments_get := fun args name => Ok (obj_get args name) |}.

(** [args.get(name)] on a plain object, which has no method [get]. *)
Definition get_is_no_function : ArgumentsInterface :=
  {| Arguments_get := fun _ _ => Throw TypeError |}.

Definition attr : Field := {| constructor_name := "Attr"; related := None |}.
Definition hasMany (e : string) : Field :=
  {| constructor_name := "HasMany"; related := Some e |}.
Definition belongsTo (e : string) : Field :=
  {| constructor_name := "BelongsTo"; related := Some e |}.

(** The entities of test/integration/VuexORMApollo.spec.js. *)
Definition User : ORMModel :=
  {| entity := "users";
     ORM_fields := [("id", attr); ("name", attr); ("posts", hasMany "posts")] |}.

Definition Post : ORMModel :=
  {| entity := "posts";
     ORM_fields := [("id", attr); ("title", attr); ("content", attr);
                    ("userId", attr); ("user", belongsTo "users")] |}.

Definition blog : gmap string Model :=
  collectModels (H := regular_nouns) [User; Post].

(** Users, posts and comments, each related to the two others. *)
Definition Member : ORMModel :=
  {| entity := "users";
     ORM_fields := [("id", attr); ("name", attr);
                    ("posts", hasMany "posts"); ("comments", hasMany "comments")] |}.

Definition Article : ORMModel :=
  {| entity := "posts";
     ORM_fields := [("id", attr); ("content", attr); ("title", attr);
                    ("userId", attr); ("otherId", attr);
                    ("user", belongsTo "users"); ("comments", hasMany "comments")] |}.

Definition Comment : ORMModel :=
  {| entity := "comments";
     ORM_fields := [("id", attr); ("content", attr); ("userId", attr);
                    ("postId", attr);
                    ("user", belongsTo "users"); ("post", belongsTo "posts")] |}.

Definition forum : gmap string Model :=
  collectModels (H := regular_nouns) [Member; Article; Comment].

Definition forum_getModel : Model + string -> outcome Model :=
  VuexORMApollo.getModel (H := regular_nouns) forum.

Definition member : Model := new_Model (H := regular_nouns) Member.
Definition article : Model := new_Model (H := regular_nouns) Article.
Definition comment : Model := new_Model (H := regular_nouns) Comment.

(** Authors write books, books have chapters: no relation leads back. *)
Definition Author : ORMModel :=
  {| entity := "authors";
     ORM_fields := [("id", attr); ("books", hasMany "books")] |}.

Definition Book : ORMModel :=
  {| entity := "books";
     ORM_fields := [("id", attr); ("chapters", hasMany "chapters")] |}.

Definition Chapter : ORMModel :=
  {| entity := "chapters"; ORM_fields := [("id", attr)] |}.

Definition library : gmap string Model :=
  collectModels (H := regular_nouns) [Author; Book; Chapter].

(** A store that keeps its records in a list; [update] merges the data
    into the records whose [id] is the one asked for. *)
Definition merge (data : value) (r : StoreRecord) : StoreRecord :=
  match data with
  | VObj o =>
      {| self_entity := self_entity r;
         props := fold_left (fun p kv => obj_set p (fst kv) (snd kv)) o (props r) |}
  | _ => r
  end.

Definition same_id (a b : value) : bool :=
  String.eqb (ToString a) (ToString b).

Definition list_store : Store :=
  {| store_state := list StoreRecord;
     dispatch_action := fun a s =>
       if String.eqb (action_name a) "update"
       then (Ok VUndefined,
             map (fun r =>
                    if same_id (obj_get (props r) "id")
                               (obj_get (match payload a with VObj o => o | _ => [] end)
                                        "where")
                    then merge (obj_get (match payload a with VObj o => o | _ => [] end)
                                        "data") r
                    else r) s)
       else (Ok VUndefined, s);
     find := fun s base id =>
       List.find (fun r => String.eqb (self_entity r) (entity base)
                           && same_id (obj_get (props r) "id") id) s |}.

(** A server that cannot be reached. *)
Definition offline : ApolloClient (H := source_text) :=
  {| apollo_query := fun _ => Throw (Rejected (VStr "Network error"));
     apollo_mutate := fun _ _ => Throw (Rejected (VStr "Network error")) |}.

(** A server that answers every mutation with two fields, the first of
    them a list of two records. *)
Definition talkative : ApolloClient (H := source_text) :=
  {| apollo_query := fun _ => Ok (VObj []);
     apollo_mutate := fun _ _ =>
       Ok (VObj [("createUser",
                  VArr [VObj [("id", VStr "7"); ("name", VStr "Charlie Brown")];
                        VObj [("id", VStr "8"); ("name", VStr "Snoopy")]]);
                 ("extra", VObj [("id", VStr "9")])]) |}.

(** A mutation builder that answers the name of the operation. *)
Definition named_mutation (model : Model) (id : value) (action : string)
  : outcome string :=
  Ok (action +:+ " " +:+ singularName model).

Definition charlie : StoreRecord :=
  {| self_entity := "users";
     props := [("id", VNum 1); ("name", VStr "Charlie Brown"); ("posts", VArr [])] |}.

Definition the_world : @World source_text list_store :=
  @Build_World source_text list_store [charlie] [] [].

(** A server that answers every query with a connection of two users,
    and every mutation with [null]. *)
Definition answering : ApolloClient (H := source_text) :=
  {| apollo_query := fun _ =>
       Ok (VObj [("users",
                  VObj [("nodes",
                         VArr [VObj [("id", VStr "1"); ("name", VStr "Charlie Brown")];
                               VObj [("id", VStr "2");
                                     ("name", VStr "Peppermint Patty")]])])]);
     apollo_mutate := fun _ _ => Ok VNull |}.

End Fixtures.

(** ** Vocabulary of the properties *)

(** The keys [buildArguments] writes an entry for. *)
Definition written_keys (args : object) : list string :=
  List.filter
    (fun key => negb (instanceof_Array (obj_get args key) || String.eqb key "id"))
    (map fst args).

(** The text of the entry of one key: what the callback appends to an
    empty clause. *)
Definition argument_entry (args : object) (signature valuesAsVariables : bool)
    (key : string) : outcome string :=
  fst <$> QueryBuilder.buildArguments_step args signature valuesAsVariables
            (EmptyString, true) key.

(** Entries joined with a comma and a blank, in parentheses when there
    is one at least. *)
Definition clause (entries : list string) : string :=
  match entries with
  | [] => EmptyString
  | _ => "(" +:+ String.concat ", " entries +:+ ")"
  end.

(** What the loop has written after a list of entries. *)
Definition written (state : string * bool) (entries : list string) : string * bool :=
  fold_left
    (fun (st : string * bool) entry =>
       (fst st +:+ (if snd st then EmptyString else ", ") +:+ entry, false))
    entries state.





(** The walk of [buildField] from a model ends: the model is registered
    and the walk ends from every relation the guard lets through, with
    the root the walk then carries. *)
Inductive builds (getModel : Model + string -> outcome Model)
  : option Model -> Model + string -> Prop :=
| builds_model (rootModel : option Model) (model : Model + string) (m : Model) :
    getModel model = Ok m ->
    (forall name field,
        In (name, field) (getRelations m) ->
        follows rootModel name = true ->
        builds getModel (Some (default m rootModel)) (inr name)) ->
    builds getModel rootModel model.

(** [Monolith.getModel] as a lookup of a model or of a name. *)
Definition Monolith_lookup `{Inflection} (models : gmap string Model)
    (model : Model + string) : outcome Model :=
  match model with
  | inl m => Ok m
  | inr name => Monolith.getModel models name
  end.

(** The callback of [Object.keys(data).forEach] in [transformIncomingData]
    as the source writes it, with property reads and the recursive call
    [self]. *)
Definition transformIncomingData_property `{Inflection}
    (self : value -> bool -> outcome value) (data : value)
    (result : object) (key : string) : outcome object :=
  item ← get_prop data key;
  if truthy item then
    if instanceof_Object item then
      nodes ← get_prop item "nodes";
      if truthy nodes
      then x ← self nodes true; Ok (obj_set result (pluralize key) x)
      else x ← self item true; Ok (obj_set result (singularize key) x)
    else if String.eqb key "id"
         then Ok (obj_set result key (parseInt item))
         else Ok (obj_set result key item)
  else Ok result.

(** The body of [transformIncomingData] as the source writes it. *)
Definition transformIncomingData_body `{Inflection}
    (self : value -> bool -> outcome value) (data : value) : outcome value :=
  match data with
  | VArr items => VArr <$> mapM (fun d => self d true) items
  | _ =>
      keys ← Object_keys data;
      VObj <$> forEach (transformIncomingData_property self data) keys []
  end.

(** The loop of [transformOutgoingData] over a list of keys. *)
Definition copy_kept (keep : string -> bool) (source : object)
    (keys : list string) (returnValue : object) : object :=
  fold_left
    (fun returnValue key =>
       let value := obj_get source key in
       if keep key then obj_set returnValue key value else returnValue)
    keys returnValue.

(** A field that is a relation, as [getRelations] tells. *)
Definition is_relation (kv : string * Field) : bool :=
  negb (String.eqb (constructor_name (snd kv)) "Attr").

(** A field a query asks for, as [getQueryFields] tells. *)
Definition is_queried (kv : string * Field) : bool :=
  String.eqb (constructor_name (snd kv)) "Attr" && negb (endsWith (fst kv) "Id").

(** The entity that is filed last under a key by [collectModels]. *)
Definition filed_under `{Inflection} (entities : list ORMModel) (key : string)
  : option ORMModel :=
  List.find (fun base => String.eqb (singularize (entity base)) key) (rev entities).

(** The actions [insertData] and [storeData] dispatch: one for each
    top-level key of the data, in order. *)
Definition store_actions (name : string) (stored : object) : list Action :=
  map (fun key => {| action_name := name;
                     payload := VObj [("data", obj_get stored key)] |})
      (map fst stored).

(** The store after a list of actions, whatever their promises settle to. *)
Definition after_actions `{Store} (actions : list Action) (s : store_state)
  : store_state :=
  fold_left (fun s a => snd (dispatch_action a s)) actions s.

(** What is stored for a scalar property: an id read as a number, any
    other value as it is. *)
Definition stored_scalar (kv : string * value) : string * value :=
  (fst kv, if String.eqb (fst kv) "id" then parseInt (snd kv) else snd kv).

(** The part of a property's value that [transformIncomingData] goes on
    with: the [nodes] of a connection, or the value itself. *)
Definition transformed_part (v : value) : value :=
  match v with
  | VObj vo => if truthy (obj_get vo "nodes") then obj_get vo "nodes" else v
  | _ => v
  end.

(** The key a transformed object or array is stored under. *)
Definition stored_key `{Inflection} (key : string) (v : value) : string :=
  match v with
  | VObj vo => if truthy (obj_get vo "nodes") then pluralize key else singularize key
  | _ => singularize key
  end.

Definition is_nullish (v : value) : bool :=
  match v with VUndefined | VNull => true | _ => false end.

(** No array of the payload holds [null] or [undefined]. *)
Fixpoint no_null_item (v : value) : bool :=
  match v with
  | VArr items => forallb (fun x => negb (is_nullish x) && no_null_item x) items
  | VObj o => forallb (fun kv => no_null_item (snd kv)) o
  | _ => true
  end.

(** A call that returns, or throws a [TypeError]. *)
Definition returns_or_TypeError {A : Type} (r : outcome A) : Prop :=
  (exists a, r = Ok a) \/ r = Throw TypeError.

(** The entry of a key in a signature, when its value is no object. *)
Definition signature_entry (args : object) (key : string) : string :=
  "$" +:+ key +:+ ": "
  +:+ (if String.eqb (typeof (obj_get args key)) "number" then "Number!" else "String!").

(** The entry of a key whose value is written out, when it is no object. *)
Definition literal_entry (args : object) (key : string) : string :=
  key +:+ ": "
  +:+ (if String.eqb (typeof (obj_get args key)) "number"
       then ToString (obj_get args key)
       else dquote +:+ ToString (obj_get args key) +:+ dquote).

(** The entry of a key that refers to the variable of its name. *)
Definition variable_entry (key : string) : string := key +:+ ": $" +:+ key.

(** * Properties *)

Lemma bind_Ok {A B : Type} (a : A) (f : A -> outcome B) : (Ok a ≫= f) = f a.
Proof. reflexivity. Qed.

(** ** The argument formatter *)

Section BuildArguments.

Lemma append_cons (ch : ascii) (a b : string) :
  String ch a +:+ b = String ch (a +:+ b).
Proof. reflexivity. Qed.

Lemma append_empty_l (a : string) : EmptyString +:+ a = a.
Proof. reflexivity. Qed.

Lemma append_assoc (a b c : string) : (a +:+ b) +:+ c = a +:+ (b +:+ c).
Proof.
  induction a as [|ch a IH]; [reflexivity|].
  now rewrite !append_cons, IH.
Qed.

Lemma append_empty_r (a : string) : a +:+ EmptyString = a.
Proof.
  induction a as [|ch a IH]; [reflexivity|].
  now rewrite append_cons, IH.
Qed.

(** A step on a key that is written appends its entry; a step on another
    key leaves the state alone. *)
Lemma buildArguments_step_written args signature valuesAsVariables text first key :
  negb (instanceof_Array (obj_get args key) || String.eqb key "id") = true ->
  QueryBuilder.buildArguments_step args signature valuesAsVariables (text, first) key =
  (entry ← argument_entry args signature valuesAsVariables key;
   Ok (text +:+ (if first then EmptyString else ", ") +:+ entry, false)).
Proof.
  intros Hkeep. unfold argument_entry, QueryBuilder.buildArguments_step.
  rewrite Hkeep.
  match goal with |- mbind _ ?c = _ => destruct c as [typeOrValue| |] end; cbn;
    [now rewrite !append_empty_l | reflexivity | reflexivity].
Qed.

Lemma buildArguments_step_skipped args signature valuesAsVariables state key :
  negb (instanceof_Array (obj_get args key) || String.eqb key "id") = false ->
  QueryBuilder.buildArguments_step args signature valuesAsVariables state key = Ok state.
Proof.
  intros Hskip. destruct state as [text first].
  unfold QueryBuilder.buildArguments_step. now rewrite Hskip.
Qed.

Lemma written_false text entries :
  written (text, false) entries =
  (text +:+ fold_right (fun e r => ", " +:+ e +:+ r) EmptyString entries, false).
Proof.
  revert text. induction entries as [|e es IH]; intros text; cbn.
  - now rewrite append_empty_r.
  - unfold written in IH. rewrite IH. now rewrite !append_assoc.
Qed.

Lemma concat_cons sep e es :
  String.concat sep (e :: es) =
  e +:+ fold_right (fun x r => sep +:+ x +:+ r) EmptyString es.
Proof.
  revert e. induction es as [|x es IH]; intros e.
  - cbn. now rewrite append_empty_r.
  - change (String.concat sep (e :: x :: es))
      with (e +:+ sep +:+ String.concat sep (x :: es)).
    rewrite IH. reflexivity.
Qed.

Lemma written_clause entries :
  (let '(text, first) := written (EmptyString, true) entries in
   if negb first then "(" +:+ text +:+ ")" else text) = clause entries.
Proof.
  destruct entries as [|e es]; [reflexivity|].
  unfold written. cbn [fold_left fst snd]. rewrite !append_empty_l.
  fold (written (e, false) es). rewrite written_false.
  cbn [negb]. unfold clause. now rewrite concat_cons.
Qed.

Lemma buildArguments_loop args signature valuesAsVariables keys state :
  forEach (QueryBuilder.buildArguments_step args signature valuesAsVariables) keys state =
  (entries ← mapM (argument_entry args signature valuesAsVariables)
               (List.filter
                  (fun key => negb (instanceof_Array (obj_get args key)
                                    || String.eqb key "id")) keys);
   Ok (written state entries)).
Proof.
  revert state. induction keys as [|key keys IH]; intros [text first]; [reflexivity|].
  cbn [forEach List.filter].
  destruct (negb (instanceof_Array (obj_get args key) || String.eqb key "id")) eqn:Hkey.
  - rewrite buildArguments_step_written by exact Hkey.
    cbn [mapM].
    destruct (argument_entry args signature valuesAsVariables key) as [entry| |];
      cbn; [|reflexivity..].
    rewrite IH.
    destruct (mapM _ _) as [entries| |]; reflexivity.
  - rewrite buildArguments_step_skipped by exact Hkey. cbn. apply IH.
Qed.

(** C9. Whatever the flags, [buildArguments] renders exactly the
    arguments that are neither named [id] nor bound to an array: the
    clause is the join of the entries of those keys, in order; no entry
    is for [id] or for an array; and the entry of a key starts with the
    key (with [$key] in a signature), so that no signature declares
    [$id]. *)
Theorem buildArguments_skips_id_and_arrays (args : object)
    (signature valuesAsVariables : bool) :
  QueryBuilder.buildArguments (Some args) signature valuesAsVariables =
    (entries ← mapM (argument_entry args signature valuesAsVariables)
                 (written_keys args);
     Ok (clause entries))
  /\ ~ In "id" (written_keys args)
  /\ (forall key, In key (written_keys args) ->
        instanceof_Array (obj_get args key) = false)
  /\ (forall key entry,
        argument_entry args signature valuesAsVariables key = Ok entry ->
        In key (written_keys args) ->
        exists typeOrValue,
          entry = (if signature then "$" else EmptyString) +:+ key
                  +:+ ": " +:+ typeOrValue).
Proof.
  repeat split.
  - unfold QueryBuilder.buildArguments. rewrite buildArguments_loop.
    fold (written_keys args).
    destruct (mapM _ _) as [entries| |]; cbn; [|reflexivity..].
    rewrite <- written_clause. now destruct (written _ entries).
  - unfold written_keys. rewrite filter_In. intros [_ Hid].
    rewrite String.eqb_refl, orb_true_r in Hid. discriminate.
  - intros key Hin. unfold written_keys in Hin. apply filter_In in Hin as [_ Hk].
    apply negb_true_iff, orb_false_iff in Hk. tauto.
  - intros key entry Hentry Hin.
    unfold written_keys in Hin. apply filter_In in Hin as [_ Hk].
    unfold argument_entry, QueryBuilder.buildArguments_step in Hentry.
    rewrite Hk in Hentry.
    match type of Hentry with
    | fmap _ (mbind _ ?c) = _ => destruct c as [typeOrValue| |]
    end; cbn in Hentry; [|discriminate..].
    exists typeOrValue. injection Hentry as <-.
    now rewrite !append_empty_l, append_assoc.
Qed.

(** C3. The three renderings of the map [{name: "Charlie Brown"}]: as a
    signature, as a literal value and as a variable reference. *)
Theorem buildArguments_charlie_brown :
  let args := Some [("name", VStr "Charlie Brown")] in
  QueryBuilder.buildArguments args true false = Ok "($name: String!)"
  /\ QueryBuilder.buildArguments args false false =
       Ok ("(name: " +:+ dquote +:+ "Charlie Brown" +:+ dquote +:+ ")")
  /\ QueryBuilder.buildArguments args false true = Ok "(name: $name)".
Proof. cbv zeta. repeat split; vm_compute; reflexivity. Qed.

End BuildArguments.

(** ** The data transformer, incoming *)

Section TransformIncoming.
Context `{Inflection}.

(** C2. The wire payload of a user with one post in a [nodes] wrapper
    becomes the store payload: ids are numbers, the wrapper is gone and
    the list sits under the plural key, scalars are copied.  The plugin's
    earlier revision has the same function. *)
Theorem transformIncomingData_user_with_posts :
  pluralize "posts" = "posts" ->
  let wire :=
    VObj [("id", VStr "1"); ("name", VStr "X");
          ("posts", VObj [("nodes", VArr [VObj [("id", VStr "5");
                                                ("title", VStr "T")]])])] in
  let stored :=
    VObj [("id", VNum 1); ("name", VStr "X");
          ("posts", VArr [VObj [("id", VNum 5); ("title", VStr "T")]])] in
  QueryBuilder.transformIncomingData wire false = Ok stored
  /\ Monolith.transformIncomingData wire = Ok stored.
Proof.
  intros Hposts. cbv zeta. unfold Monolith.transformIncomingData.
  split; cbn; rewrite Hposts; reflexivity.
Qed.

Lemma transformed_nodes_spec (self : value -> bool -> outcome value) (o : object) :
  QueryBuilder.transformed_nodes self o =
  if truthy (obj_get o "nodes") then Some (self (obj_get o "nodes") true) else None.
Proof.
  induction o as [|[k x] o IH]; cbn [QueryBuilder.transformed_nodes obj_get].
  - reflexivity.
  - destruct (String.eqb k "nodes"); [now destruct (truthy x) | exact IH].
Qed.

(** On properties that hold the values the object answers for their
    keys, the structural loop is the loop over the keys. *)
Lemma transformed_properties_loop (self : value -> bool -> outcome value)
    (o entries result : object) :
  (forall k v, In (k, v) entries -> obj_get o k = v) ->
  QueryBuilder.transformed_properties self entries result =
  forEach (transformIncomingData_property self (VObj o)) (map fst entries) result.
Proof.
  revert result. induction entries as [|[key v] entries IH]; intros result Hget.
  - reflexivity.
  - cbn [QueryBuilder.transformed_properties map fst forEach].
    assert (IH' : forall r, QueryBuilder.transformed_properties self entries r =
                            forEach (transformIncomingData_property self (VObj o))
                                    (map fst entries) r).
    { intros r. apply IH. intros k x Hin. apply Hget. now right. }
    clear IH. revert IH'.
    generalize (forEach (transformIncomingData_property self (VObj o)) (map fst entries)).
    intros loop IH'.
    unfold transformIncomingData_property. cbn [get_prop].
    rewrite (Hget key v) by now left. rewrite bind_Ok.
    destruct (truthy v) eqn:Htruthy; [|now rewrite bind_Ok].
    destruct v as [| | | | | |items|vo]; cbn [instanceof_Object get_prop]; try discriminate;
      try (destruct (String.eqb key "id"); now rewrite bind_Ok, IH').
    + rewrite bind_Ok. change (array_index "nodes") with (@None nat).
      cbn [truthy]. destruct (self (VArr items) true); cbn; [apply IH' | reflexivity..].
    + rewrite bind_Ok, transformed_nodes_spec.
      destruct (truthy (obj_get vo "nodes")).
      * destruct (self (obj_get vo "nodes") true); cbn; [apply IH' | reflexivity..].
      * destruct (self (VObj vo) true); cbn; [apply IH' | reflexivity..].
Qed.

Lemma obj_get_In (o : object) (k : string) (v : value) :
  NoDup (map fst o) -> In (k, v) o -> obj_get o k = v.
Proof.
  induction o as [|[k' x] o IH]; intros Hnd Hin; [destruct Hin|].
  cbn [map fst] in Hnd. apply NoDup_cons in Hnd as [Hnotin Hnd].
  rewrite list_elem_of_In in Hnotin. cbn [obj_get].
  destruct Hin as [Heq|Hin].
  - injection Heq as -> ->. now rewrite String.eqb_refl.
  - destruct (String.eqb_spec k' k) as [->|Hne]; [|now apply IH].
    exfalso. apply Hnotin. apply in_map_iff. now exists (k, v).
Qed.

(** [transformIncomingData] is the body the source writes, called on
    itself, for every payload but a bare string (whose characters the
    source would enumerate by index); an object has each key once. *)
Lemma transformIncomingData_unfold (data : value) (recursiveCall : bool) :
  match data with
  | VObj o => NoDup (map fst o)
  | VStr _ => False
  | _ => True
  end ->
  QueryBuilder.transformIncomingData data recursiveCall =
  transformIncomingData_body QueryBuilder.transformIncomingData data.
Proof.
  destruct data as [| | | | | |items|o]; intros Hwf; try reflexivity; [destruct Hwf|].
  cbn [QueryBuilder.transformIncomingData transformIncomingData_body Object_keys].
  rewrite bind_Ok. f_equal.
  apply (transformed_properties_loop
           (fun d r => QueryBuilder.transformIncomingData d r) o o []).
  intros k v. now apply obj_get_In.
Qed.

End TransformIncoming.

Lemma transformIncomingData_user_with_posts_witness :
  pluralize (Inflection := Fixtures.regular_nouns) "posts" = "posts"
  /\ QueryBuilder.transformIncomingData (H := Fixtures.regular_nouns)
       (VObj [("id", VStr "1"); ("name", VStr "X");
              ("posts", VObj [("nodes", VArr [VObj [("id", VStr "5");
                                                    ("title", VStr "T")]])])])
       false
     = Ok (VObj [("id", VNum 1); ("name", VStr "X");
                 ("posts", VArr [VObj [("id", VNum 5); ("title", VStr "T")]])]).
Proof.
  split; [reflexivity|].
  apply (transformIncomingData_user_with_posts (H := Fixtures.regular_nouns)).
  reflexivity.
Defined.

(** ** Strings and insertion-ordered maps *)

Lemma length_append (a b : string) :
  String.length (a +:+ b) = String.length a + String.length b.
Proof.
  induction a as [|ch a IH]; [reflexivity|].
  rewrite append_cons. cbn. now rewrite IH.
Qed.

Lemma substring_all (s : string) : substring 0 (String.length s) s = s.
Proof. induction s as [|ch s IH]; cbn; [reflexivity | now rewrite IH]. Qed.

Lemma substring_after (x suffix : string) :
  substring (String.length x) (String.length suffix) (x +:+ suffix) = suffix.
Proof.
  induction x as [|ch x IH]; [apply substring_all|].
  rewrite append_cons. cbn. exact IH.
Qed.

Lemma substring_split (s : string) (i : nat) :
  i <= String.length s ->
  substring 0 i s +:+ substring i (String.length s - i) s = s.
Proof.
  revert i. induction s as [|ch s IH]; intros [|i] Hi; cbn in *; try reflexivity.
  - now rewrite append_empty_l, substring_all.
  - rewrite append_cons. rewrite IH by lia. reflexivity.
Qed.

(** [s.endsWith(suffix)] holds exactly of the strings [x ++ suffix]. *)
Lemma endsWith_spec (s suffix : string) :
  endsWith s suffix = true <-> exists x, s = x +:+ suffix.
Proof.
  unfold endsWith. rewrite andb_true_iff, Nat.leb_le, String.eqb_eq. split.
  - intros [Hle Hsub].
    exists (substring 0 (String.length s - String.length suffix) s).
    pose proof (substring_split s (String.length s - String.length suffix)) as Hs.
    replace (String.length s - (String.length s - String.length suffix))
      with (String.length suffix) in Hs by lia.
    rewrite Hsub in Hs. symmetry. apply Hs. lia.
  - intros [x ->]. rewrite length_append. split; [lia|].
    replace (String.length x + String.length suffix - String.length suffix)
      with (String.length x) by lia.
    apply substring_after.
Qed.

Lemma Map_has_true {V : Type} (m : list (string * V)) (key : string) :
  Map_has m key = true <-> In key (map fst m).
Proof.
  unfold Map_has. rewrite existsb_exists, in_map_iff. split.
  - intros [kv [Hin Heq]]. apply String.eqb_eq in Heq. eauto.
  - intros [kv [Heq Hin]]. exists kv. split; [assumption|]. now apply String.eqb_eq.
Qed.

Lemma Map_set_keys {V : Type} (m : list (string * V)) (key : string) (v : V) :
  map fst (Map_set m key v) =
  if Map_has m key then map fst m else map fst m ++ [key].
Proof.
  induction m as [|[k x] m IH]; [reflexivity|].
  cbn [Map_set]. unfold Map_has in *. cbn [existsb fst].
  destruct (String.eqb_spec k key) as [->|Hne]; cbn [orb].
  - reflexivity.
  - cbn [map fst]. rewrite IH. now destruct (existsb _ m).
Qed.

Lemma Map_set_NoDup {V : Type} (m : list (string * V)) (key : string) (v : V) :
  NoDup (map fst m) -> NoDup (map fst (Map_set m key v)).
Proof.
  intros Hm. rewrite Map_set_keys.
  destruct (Map_has m key) eqn:Hhas; [assumption|].
  apply NoDup_app; repeat split.
  - assumption.
  - intros k Hk Hin. apply list_elem_of_In in Hk.
    assert (Map_has m key = true); [|congruence].
    apply Map_has_true. apply list_elem_of_In in Hin.
    cbn in Hin. destruct Hin as [<-|[]]. assumption.
  - apply NoDup_singleton.
Qed.

Lemma Map_set_In {V : Type} (m : list (string * V)) (key : string) (v : V) k x :
  In (k, x) (Map_set m key v) -> (k = key /\ x = v) \/ In (k, x) m.
Proof.
  induction m as [|[k' x'] m IH]; cbn [Map_set].
  - intros [Heq|[]]. injection Heq as <- <-. now left.
  - destruct (String.eqb_spec k' key) as [->|Hne]; intros [Heq|Hin].
    + injection Heq as <- <-. now left.
    + right. now right.
    + right. now left.
    + destruct (IH Hin) as [?|?]; [now left | right; now right].
Qed.

(** ** The model descriptor *)

Lemma getQueryFields_filter (m : Model) :
  getQueryFields m =
  map fst (List.filter
             (fun kv => String.eqb (constructor_name (snd kv)) "Attr"
                        && negb (endsWith (fst kv) "Id"))
             (fields m)).
Proof.
  unfold getQueryFields.
  enough (Hacc : forall l acc,
             fold_left
               (fun acc (kv : string * Field) =>
                  let '(name, field) := kv in
                  if String.eqb (constructor_name field) "Attr"
                     && negb (endsWith name "Id")
                  then acc ++ [name] else acc) l acc =
             acc ++ map fst (List.filter
                               (fun kv => String.eqb (constructor_name (snd kv)) "Attr"
                                          && negb (endsWith (fst kv) "Id")) l))
    by apply (Hacc (fields m) []).
  induction l as [|[name field] l IH]; intros acc; cbn [fold_left List.filter].
  - now rewrite app_nil_r.
  - rewrite IH. cbn [fst snd].
    destruct (_ && _); cbn [map fst]; [now rewrite <- app_assoc | reflexivity].
Qed.

Lemma getQueryFields_In (m : Model) (name : string) :
  In name (getQueryFields m) <->
  exists field, In (name, field) (fields m)
                /\ constructor_name field = "Attr"
                /\ endsWith name "Id" = false.
Proof.
  rewrite getQueryFields_filter, in_map_iff. split.
  - intros [[k field] [<- Hin]]. apply filter_In in Hin as [Hin Hq].
    cbn [fst snd] in *. apply andb_true_iff in Hq as [Hattr Hid].
    exists field. rewrite String.eqb_eq in Hattr. rewrite negb_true_iff in Hid. auto.
  - intros [field (Hin & Hattr & Hid)]. exists (name, field). split; [reflexivity|].
    apply filter_In. split; [assumption|]. cbn [fst snd].
    rewrite Hattr, Hid. reflexivity.
Qed.

Lemma fields_NoDup `{Inflection} (base : ORMModel) :
  NoDup (map fst (fields (new_Model base))).
Proof.
  cbn [fields new_Model].
  assert (Hnil : NoDup (map fst (@nil (string * Field)))) by constructor.
  revert Hnil. generalize (@nil (string * Field)) as acc.
  induction (ORM_fields base) as [|kv l IH]; intros acc Hacc; cbn [fold_left].
  - assumption.
  - apply IH. now apply Map_set_NoDup.
Qed.

Lemma getRelations_In (m : Model) (name : string) (field : Field) :
  In (name, field) (getRelations m) ->
  In (name, field) (fields m) /\ constructor_name field <> "Attr".
Proof.
  unfold getRelations.
  assert (Hnil : forall k f, In (k, f) (@nil (string * Field)) ->
                             In (k, f) (fields m) /\ constructor_name f <> "Attr")
    by (intros ? ? []).
  revert Hnil. generalize (@nil (string * Field)) as acc.
  assert (Hsub : forall kv, In kv (fields m) -> In kv (fields m)) by auto.
  revert Hsub. generalize (fields m) at 1 4 as l.
  induction l as [|[k f] l IH]; intros Hsub acc Hacc; cbn [fold_left].
  - apply Hacc.
  - apply IH; [intros kv Hkv; apply Hsub; now right|].
    destruct (String.eqb_spec (constructor_name f) "Attr") as [Hattr|Hrel]; cbn [negb].
    + assumption.
    + intros k' f' Hin. apply Map_set_In in Hin as [[-> ->]|Hin]; [|now apply Hacc].
      split; [apply Hsub; now left | assumption].
Qed.

Lemma NoDup_keys_functional {V : Type} (m : list (string * V)) k (x y : V) :
  NoDup (map fst m) -> In (k, x) m -> In (k, y) m -> x = y.
Proof.
  induction m as [|[k' z] m IH]; intros Hnd Hx Hy; [destruct Hx|].
  cbn [map fst] in Hnd. apply NoDup_cons in Hnd as [Hnotin Hnd].
  rewrite list_elem_of_In in Hnotin.
  destruct Hx as [Hx|Hx], Hy as [Hy|Hy].
  - congruence.
  - injection Hx as -> ->. exfalso. apply Hnotin.
    apply in_map_iff. now exists (k, y).
  - injection Hy as -> ->. exfalso. apply Hnotin.
    apply in_map_iff. now exists (k, x).
  - now apply IH.
Qed.

(** C6. The fields a query asks for are exactly the fields of class
    [Attr] whose name does not end in [Id]: no name of the form [xId] is
    queried, and no queried name is a relation of the model. *)
Theorem getQueryFields_spec `{Inflection} (base : ORMModel) (name : string) :
  let model := new_Model base in
  (In name (getQueryFields model) <->
   exists field, In (name, field) (fields model)
                 /\ constructor_name field = "Attr"
                 /\ ~ (exists x, name = x +:+ "Id"))
  /\ (forall x, ~ In (x +:+ "Id") (getQueryFields model))
  /\ (In name (getQueryFields model) -> Map_has (getRelations model) name = false).
Proof.
  intros model.
  assert (Hends : forall s, endsWith s "Id" = false <-> ~ (exists x, s = x +:+ "Id")).
  { intros s. rewrite <- endsWith_spec. now destruct (endsWith s "Id"). }
  repeat split.
  - intros Hin. apply getQueryFields_In in Hin as [field (Hin & Hattr & Hid)].
    exists field. rewrite <- Hends. auto.
  - intros [field (Hin & Hattr & Hid)]. apply getQueryFields_In.
    exists field. rewrite Hends. auto.
  - intros x Hin. apply getQueryFields_In in Hin as [field (_ & _ & Hid)].
    apply Hends in Hid. apply Hid. now exists x.
  - intros Hin. apply getQueryFields_In in Hin as [field (Hin & Hattr & _)].
    destruct (Map_has (getRelations model) name) eqn:Hrel; [exfalso | reflexivity].
    apply Map_has_true, in_map_iff in Hrel as [[k relation] [Hk Hrel]].
    cbn [fst] in Hk. subst k.
    apply getRelations_In in Hrel as [Hrel Hclass].
    apply Hclass.
    rewrite (NoDup_keys_functional (fields model) name relation field); auto.
    apply fields_NoDup.
Qed.

(** ** The data transformer, outgoing *)

Lemma obj_get_set (o : object) (key : string) (v : value) (k : string) :
  obj_get (obj_set o key v) k = if String.eqb key k then v else obj_get o k.
Proof.
  induction o as [|[k' x] o IH]; cbn [obj_set obj_get].
  - now destruct (String.eqb key k).
  - destruct (String.eqb_spec k' key) as [->|Hne]; cbn [obj_get].
    + now destruct (String.eqb key k).
    + rewrite IH. destruct (String.eqb_spec k' k) as [->|Hne'].
      * destruct (String.eqb_spec key k) as [->|]; [contradiction | reflexivity].
      * reflexivity.
Qed.

Lemma obj_has_set (o : object) (key : string) (v : value) (k : string) :
  obj_has (obj_set o key v) k = String.eqb key k || obj_has o k.
Proof.
  unfold obj_has. induction o as [|[k' x] o IH]; cbn [obj_set existsb fst].
  - now rewrite orb_false_r.
  - destruct (String.eqb_spec k' key) as [->|Hne]; cbn [existsb fst].
    + now destruct (String.eqb key k).
    + rewrite IH. destruct (String.eqb k' k), (String.eqb key k); reflexivity.
Qed.

Lemma obj_set_fresh (o : object) (key : string) (v : value) :
  obj_has o key = false -> obj_set o key v = o ++ [(key, v)].
Proof.
  unfold obj_has. induction o as [|[k x] o IH]; cbn [existsb fst obj_set]; [reflexivity|].
  intros Hfresh. apply orb_false_iff in Hfresh as [Hk Ho].
  rewrite Hk, IH by assumption. reflexivity.
Qed.

Section Outgoing.
Variable keep : string -> bool.
Variable source : object.

Lemma copy_kept_cons key keys acc :
  copy_kept keep source (key :: keys) acc =
  copy_kept keep source keys
    (if keep key then obj_set acc key (obj_get source key) else acc).
Proof. reflexivity. Qed.

Lemma copy_has keys acc k :
  obj_has (copy_kept keep source keys acc) k =
  obj_has acc k || (existsb (String.eqb k) keys && keep k).
Proof.
  revert acc. induction keys as [|key keys IH]; intros acc; cbn [existsb].
  - cbn. now rewrite orb_false_r.
  - rewrite copy_kept_cons, IH. destruct (keep key) eqn:Hkeep.
    + rewrite obj_has_set. rewrite (String.eqb_sym k key).
      destruct (String.eqb_spec key k) as [->|Hne]; cbn [orb andb].
      * rewrite Hkeep. now rewrite !orb_true_r.
      * reflexivity.
    + destruct (String.eqb_spec k key) as [->|Hne]; cbn [orb andb]; [|reflexivity].
      rewrite Hkeep, andb_false_r. now rewrite orb_false_r.
Qed.

Lemma copy_get keys acc k :
  obj_get (copy_kept keep source keys acc) k =
  if existsb (String.eqb k) keys && keep k then obj_get source k else obj_get acc k.
Proof.
  revert acc. induction keys as [|key keys IH]; intros acc; cbn [existsb].
  - reflexivity.
  - rewrite copy_kept_cons, IH. destruct (keep key) eqn:Hkeep.
    + rewrite obj_get_set. rewrite (String.eqb_sym k key).
      destruct (String.eqb_spec key k) as [->|Hne]; cbn [orb andb].
      * rewrite Hkeep. now destruct (existsb _ keys).
      * reflexivity.
    + destruct (String.eqb_spec k key) as [->|Hne]; cbn [orb andb]; [|reflexivity].
      now rewrite Hkeep, andb_false_r.
Qed.

Lemma copy_fresh keys acc :
  NoDup keys ->
  (forall k, In k keys -> obj_has acc k = false) ->
  copy_kept keep source keys acc =
  acc ++ map (fun k => (k, obj_get source k)) (List.filter keep keys).
Proof.
  revert acc. induction keys as [|key keys IH]; intros acc Hnd Hfresh;
    cbn [List.filter].
  - cbn. now rewrite app_nil_r.
  - rewrite copy_kept_cons. apply NoDup_cons in Hnd as [Hnotin Hnd].
    rewrite list_elem_of_In in Hnotin.
    destruct (keep key) eqn:Hkeep.
    + rewrite IH; [|assumption|].
      * rewrite obj_set_fresh by (apply Hfresh; now left).
        now rewrite <- app_assoc.
      * intros k Hk. rewrite obj_has_set, Hfresh by now right.
        destruct (String.eqb_spec key k) as [->|]; [contradiction | reflexivity].
    + apply IH; [assumption|]. intros k Hk. apply Hfresh. now right.
Qed.

End Outgoing.

Lemma obj_has_keys (o : object) (k : string) :
  obj_has o k = existsb (String.eqb k) (map fst o).
Proof.
  unfold obj_has. induction o as [|[k' x] o IH]; cbn [existsb map fst]; [reflexivity|].
  now rewrite IH, String.eqb_sym.
Qed.

Lemma entries_of_keys (keep : string -> bool) (o : object) :
  NoDup (map fst o) ->
  map (fun k => (k, obj_get o k)) (List.filter keep (map fst o)) =
  List.filter (fun kv => keep (fst kv)) o.
Proof.
  induction o as [|[k x] o IH]; intros Hnd; [reflexivity|].
  cbn [map fst] in Hnd. apply NoDup_cons in Hnd as [Hnotin Hnd].
  rewrite list_elem_of_In in Hnotin.
  cbn [map fst List.filter].
  assert (Hrest : map (fun k' => (k', obj_get ((k, x) :: o) k'))
                      (List.filter keep (map fst o))
                  = List.filter (fun kv => keep (fst kv)) o).
  { rewrite <- IH by assumption. apply map_ext_in.
    intros k' Hk'. apply filter_In in Hk' as [Hk' _]. cbn [obj_get].
    destruct (String.eqb_spec k k') as [->|]; [contradiction | reflexivity]. }
  destruct (keep k); cbn [map]; [|exact Hrest].
  f_equal; [|exact Hrest].
  cbn [obj_get]. now rewrite String.eqb_refl.
Qed.

(** C8. For a record of a registered model, [transformOutgoingData]
    returns the record's properties that are neither relations of the
    model nor [id], each with the value it has in the record, and nothing
    else; the properties keep their order. *)
Theorem transformOutgoingData_spec (getModel : Model + string -> outcome Model)
    (data : StoreRecord) (model : Model) :
  getModel (inr (self_entity data)) = Ok model ->
  let kept key :=
    negb (Map_has (getRelations model) key) && negb (String.eqb key "id") in
  exists out,
    QueryBuilder.transformOutgoingData getModel data = Ok out
    /\ (forall key, obj_has out key = obj_has (props data) key && kept key)
    /\ (forall key, obj_has out key = true ->
                    obj_get out key = obj_get (props data) key)
    /\ (NoDup (map fst (props data)) ->
        out = List.filter (fun kv => kept (fst kv)) (props data)).
Proof.
  intros Hmodel kept. unfold QueryBuilder.transformOutgoingData.
  rewrite Hmodel, bind_Ok.
  exists (copy_kept kept (props data) (map fst (props data)) []).
  split; [reflexivity|].
  repeat split.
  - intros key. rewrite copy_has. cbn [obj_has existsb orb].
    now rewrite obj_has_keys.
  - intros key Hhas. rewrite copy_has in Hhas. rewrite copy_get.
    cbn [obj_has existsb orb] in Hhas. now rewrite Hhas.
  - intros Hnd. rewrite copy_fresh; [|assumption|reflexivity].
    cbn [app]. now apply (entries_of_keys kept).
Qed.

Lemma transformOutgoingData_spec_witness :
  exists out,
    QueryBuilder.transformOutgoingData
      (VuexORMApollo.getModel (H := Fixtures.regular_nouns) Fixtures.blog)
      Fixtures.charlie = Ok out
    /\ obj_has out "name" = true
    /\ obj_has out "posts" = false
    /\ obj_has out "id" = false.
Proof.
  destruct (transformOutgoingData_spec
              (VuexORMApollo.getModel (H := Fixtures.regular_nouns) Fixtures.blog)
              Fixtures.charlie
              (new_Model (H := Fixtures.regular_nouns) Fixtures.User))
    as [out (Hout & Hhas & _)]; [vm_compute; reflexivity|].
  exists out. split; [exact Hout|].
  rewrite !Hhas. repeat split; vm_compute; reflexivity.
Defined.

(** ** The plugin: saving a record *)

Section Saving.
Context `{Inflection} `{ApolloClient} `{Store}.
Variable models : gmap string Model.
Variable buildMutation : Model -> value -> string -> outcome Document.

Lemma run_bind {A B : Type} (m : Async A) (f : A -> Async B) (w : World) :
  run (m ≫= f) w =
  match run m w with
  | (Ok a, w') => run (f a) w'
  | (Throw e, w') => (Throw e, w')
  | (OutOfFuel, w') => (OutOfFuel, w')
  end.
Proof. reflexivity. Qed.








End Saving.



(** ** The query builder: when the walk through the model graph ends *)

Section Walk.
Variable getModel : Model + string -> outcome Model.

Lemma buildField_step (fuel : nat) model multiple args withVars rootModel name :
  QueryBuilder.buildField getModel (S fuel) model multiple args withVars rootModel name =
  (m ← getModel model;
   params ← QueryBuilder.buildArguments args false withVars;
   relations ← QueryBuilder.buildRelationsQuery getModel fuel m rootModel;
   Ok (if multiple
       then QueryBuilder.nodes_field
              (QueryBuilder.name_or name (pluralName m)) params
              (QueryBuilder.fields_text m relations)
       else QueryBuilder.record_field
              (QueryBuilder.name_or name (singularName m)) params
              (QueryBuilder.fields_text m relations))).
Proof.
  cbn [QueryBuilder.buildField]. unfold QueryBuilder.buildRelationsQuery.
  destruct (getModel model) as [m| |]; cbn; [|reflexivity..].
  destruct (QueryBuilder.buildArguments args false withVars); cbn; [|reflexivity..].
  destruct (QueryBuilder.buildRelationsQuery_with _ m rootModel); cbn; [|reflexivity..].
  now destruct multiple.
Qed.

(** The loop of [buildRelationsQuery] over relations that all return. *)
Lemma relations_return (m : Model) (rootModel : option Model)
    (relations : list (string * Field)) :
  (forall name field,
      In (name, field) relations -> follows rootModel name = true ->
      exists fuel0 text, forall fuel, fuel0 <= fuel ->
        QueryBuilder.buildField getModel fuel (inr name)
          (negb (String.eqb (constructor_name field) "BelongsTo"))
          None false (Some (default m rootModel)) None = Ok text) ->
  forall acc, exists fuel0 queries,
    length queries =
      length (List.filter (fun kv => follows rootModel (fst kv)) relations)
    /\ forall fuel, fuel0 <= fuel ->
      forEach
        (fun relationQueries (kv : string * Field) =>
           let '(name, field) := kv in
           if follows rootModel name then
             let multiple := negb (String.eqb (constructor_name field) "BelongsTo") in
             q ← QueryBuilder.buildField getModel fuel (inr name) multiple None false
                   (Some (default m rootModel)) None;
             Ok (relationQueries ++ [q])
           else Ok relationQueries)
        relations acc = Ok (acc ++ queries).
Proof.
  induction relations as [|[name field] relations IH]; intros Hall acc.
  - exists 0, []. split; [reflexivity|]. intros fuel _. cbn. now rewrite app_nil_r.
  - cbn [List.filter fst forEach].
    destruct (follows rootModel name) eqn:Hfollows.
    + destruct (Hall name field) as (fuel1 & text & Htext); [now left | assumption |].
      destruct (IH (fun n f Hin => Hall n f (or_intror Hin)) (acc ++ [text]))
        as (fuel2 & queries & Hlen & Hqueries).
      exists (Nat.max fuel1 fuel2), (text :: queries).
      split; [cbn [length]; now rewrite Hlen|].
      intros fuel Hfuel.
      rewrite Htext by lia. cbn. rewrite Hqueries by lia.
      now rewrite <- app_assoc.
    + destruct (IH (fun n f Hin => Hall n f (or_intror Hin)) acc)
        as (fuel2 & queries & Hlen & Hqueries).
      exists fuel2, queries. split; [assumption|].
      intros fuel Hfuel. cbn. now apply Hqueries.
Qed.

(** From a model whose walk ends, [buildField] returns once the fuel
    suffices, whatever the flags. *)
Lemma buildField_returns (rootModel : option Model) (model : Model + string) :
  builds getModel rootModel model ->
  forall multiple args withVars name params,
    QueryBuilder.buildArguments args false withVars = Ok params ->
    exists fuel0 text, forall fuel, fuel0 <= fuel ->
      QueryBuilder.buildField getModel fuel model multiple args withVars rootModel name
      = Ok text.
Proof.
  induction 1 as [rootModel model m Hmodel _ IH].
  intros multiple args withVars name params Hparams.
  destruct (relations_return m rootModel (getRelations m)) with (acc := @nil string)
    as (fuel0 & queries & _ & Hqueries).
  { intros n f Hin Hfollows. now apply (IH n f Hin Hfollows _ None false None EmptyString). }
  eexists (S fuel0), _. intros [|fuel] Hfuel; [lia|].
  rewrite buildField_step, Hmodel. cbn. rewrite Hparams. cbn.
  unfold QueryBuilder.buildRelationsQuery, QueryBuilder.buildRelationsQuery_with.
  rewrite Hqueries by lia. cbn. reflexivity.
Qed.

(** The field built for a model whose walk ends: the template of the
    flag, around the model's own fields and one query per relation the
    guard lets through. *)
Lemma buildField_shape (rootModel : option Model) (model : Model + string) (m : Model)
    multiple args withVars name params :
  builds getModel rootModel model ->
  getModel model = Ok m ->
  QueryBuilder.buildArguments args false withVars = Ok params ->
  exists fuel0 relations,
    length relations =
      length (List.filter (fun kv => follows rootModel (fst kv)) (getRelations m))
    /\ forall fuel, fuel0 <= fuel ->
      QueryBuilder.buildRelationsQuery getModel fuel m rootModel = Ok relations
      /\ QueryBuilder.buildField getModel (S fuel) model multiple args withVars
           rootModel name =
         Ok (if multiple
             then QueryBuilder.nodes_field
                    (QueryBuilder.name_or name (pluralName m)) params
                    (QueryBuilder.fields_text m relations)
             else QueryBuilder.record_field
                    (QueryBuilder.name_or name (singularName m)) params
                    (QueryBuilder.fields_text m relations)).
Proof.
  intros Hbuilds Hmodel Hparams.
  destruct Hbuilds as [rootModel model m' Hmodel' Hrelations].
  assert (m' = m) as -> by congruence.
  destruct (relations_return m rootModel (getRelations m)) with (acc := @nil string)
    as (fuel0 & relations & Hlen & Hqueries).
  { intros n f Hin Hfollows.
    now apply (buildField_returns _ _ (Hrelations n f Hin Hfollows)
                 _ None false None EmptyString). }
  exists fuel0, relations. split; [assumption|].
  intros fuel Hfuel.
  assert (Hrel : QueryBuilder.buildRelationsQuery getModel fuel m rootModel = Ok relations).
  { unfold QueryBuilder.buildRelationsQuery, QueryBuilder.buildRelationsQuery_with.
    now rewrite Hqueries by assumption. }
  split; [assumption|].
  rewrite buildField_step, Hmodel. cbn. rewrite Hparams. cbn. now rewrite Hrel.
Qed.

End Walk.

Section MonolithWalk.
Context `{Inflection}.
Variable models : gmap string Model.

Lemma Monolith_buildField_step (fuel : nat) modelName multiple filter rootModel :
  Monolith.buildField models (S fuel) modelName multiple filter rootModel =
  (m ← Monolith.getModel models modelName;
   relations ← Monolith.buildRelationsQuery models fuel m rootModel;
   Ok (if multiple
       then Monolith.nodes_field m (Monolith.id_params filter) relations
       else Monolith.record_field m (Monolith.id_params filter) relations)).
Proof.
  cbn [Monolith.buildField]. unfold Monolith.buildRelationsQuery.
  destruct (Monolith.getModel models modelName) as [m| |]; cbn; [|reflexivity..].
  destruct (Monolith.buildRelationsQuery_with _ m rootModel); cbn; [|reflexivity..].
  now destruct multiple.
Qed.

Lemma Monolith_relations_return (m : Model) (rootModel : option Model)
    (relations : list (string * Field)) :
  (forall name field,
      In (name, field) relations -> follows rootModel name = true ->
      exists fuel0 text, forall fuel, fuel0 <= fuel ->
        Monolith.buildField models fuel name
          (negb (String.eqb (constructor_name field) "BelongsTo"))
          None (Some (default m rootModel)) = Ok text) ->
  forall acc, exists fuel0 queries,
    length queries =
      length (List.filter (fun kv => follows rootModel (fst kv)) relations)
    /\ forall fuel, fuel0 <= fuel ->
      forEach
        (fun relationQueries (kv : string * Field) =>
           let '(name, field) := kv in
           if follows rootModel name then
             let multiple := negb (String.eqb (constructor_name field) "BelongsTo") in
             q ← Monolith.buildField models fuel name multiple None
                   (Some (default m rootModel));
             Ok (relationQueries ++ [q])
           else Ok relationQueries)
        relations acc = Ok (acc ++ queries).
Proof.
  induction relations as [|[name field] relations IH]; intros Hall acc.
  - exists 0, []. split; [reflexivity|]. intros fuel _. cbn. now rewrite app_nil_r.
  - cbn [List.filter fst forEach].
    destruct (follows rootModel name) eqn:Hfollows.
    + destruct (Hall name field) as (fuel1 & text & Htext); [now left | assumption |].
      destruct (IH (fun n f Hin => Hall n f (or_intror Hin)) (acc ++ [text]))
        as (fuel2 & queries & Hlen & Hqueries).
      exists (Nat.max fuel1 fuel2), (text :: queries).
      split; [cbn [length]; now rewrite Hlen|].
      intros fuel Hfuel.
      rewrite Htext by lia. cbn. rewrite Hqueries by lia.
      now rewrite <- app_assoc.
    + destruct (IH (fun n f Hin => Hall n f (or_intror Hin)) acc)
        as (fuel2 & queries & Hlen & Hqueries).
      exists fuel2, queries. split; [assumption|].
      intros fuel Hfuel. cbn. now apply Hqueries.
Qed.

Lemma Monolith_buildField_returns (rootModel : option Model) (model : Model + string) :
  builds (Monolith_lookup models) rootModel model ->
  forall modelName multiple filter,
    model = inr modelName ->
    exists fuel0 text, forall fuel, fuel0 <= fuel ->
      Monolith.buildField models fuel modelName multiple filter rootModel = Ok text.
Proof.
  induction 1 as [rootModel model m Hmodel _ IH].
  intros modelName multiple filter ->. cbn [Monolith_lookup] in Hmodel.
  destruct (Monolith_relations_return m rootModel (getRelations m))
    with (acc := @nil string) as (fuel0 & queries & _ & Hqueries).
  { intros n f Hin Hfollows. now apply (IH n f Hin Hfollows n _ None). }
  eexists (S fuel0), _. intros [|fuel] Hfuel; [lia|].
  rewrite Monolith_buildField_step, Hmodel. cbn.
  unfold Monolith.buildRelationsQuery, Monolith.buildRelationsQuery_with.
  rewrite Hqueries by lia. cbn. reflexivity.
Qed.

Lemma Monolith_buildField_shape (rootModel : option Model) (modelName : string)
    (m : Model) multiple filter :
  builds (Monolith_lookup models) rootModel (inr modelName) ->
  Monolith.getModel models modelName = Ok m ->
  exists fuel0 relations,
    length relations =
      length (List.filter (fun kv => follows rootModel (fst kv)) (getRelations m))
    /\ forall fuel, fuel0 <= fuel ->
      Monolith.buildRelationsQuery models fuel m rootModel = Ok relations
      /\ Monolith.buildField models (S fuel) modelName multiple filter rootModel =
         Ok (if multiple
             then Monolith.nodes_field m (Monolith.id_params filter) relations
             else Monolith.record_field m (Monolith.id_params filter) relations).
Proof.
  intros Hbuilds Hmodel.
  inversion Hbuilds as [rootModel' model' m' Hmodel' Hrelations]; subst.
  cbn [Monolith_lookup] in Hmodel'.
  assert (m' = m) as -> by congruence.
  destruct (Monolith_relations_return m rootModel (getRelations m))
    with (acc := @nil string) as (fuel0 & relations & Hlen & Hqueries).
  { intros n f Hin Hfollows.
    now apply (Monolith_buildField_returns _ _ (Hrelations n f Hin Hfollows) n _ None). }
  exists fuel0, relations. split; [assumption|].
  intros fuel Hfuel.
  assert (Hrel : Monolith.buildRelationsQuery models fuel m rootModel = Ok relations).
  { unfold Monolith.buildRelationsQuery, Monolith.buildRelationsQuery_with.
    now rewrite Hqueries by assumption. }
  split; [assumption|].
  rewrite Monolith_buildField_step, Hmodel. cbn. now rewrite Hrel.
Qed.

End MonolithWalk.

(** ** The query builder: the shape of a query *)

(** The two revisions look a name up in the same registry: a walk that
    ends with the one ends with the other. *)
Lemma builds_same_registry `{Inflection} (models : gmap string Model)
    (rootModel : option Model) (model : Model + string) :
  builds (Monolith_lookup models) rootModel model ->
  builds (VuexORMApollo.getModel models) rootModel model.
Proof.
  induction 1 as [rootModel model m Hmodel _ IH].
  apply (builds_model _ rootModel model m); [|exact IH].
  destruct model as [m'|name]; [exact Hmodel|].
  cbn [Monolith_lookup] in Hmodel. unfold Monolith.getModel in Hmodel.
  unfold VuexORMApollo.getModel.
  destruct (models !! singularize name); [exact Hmodel | discriminate].
Qed.

(** C4, as amended.  For a registered model whose walk ends and for every
    filter, the plugin's own [buildQuery] returns, once the fuel
    suffices, what the parser makes of the root field in an outer block:
    the record template under the singular name with the argument
    [(id: ...)] of the filter's id, with no [nodes] block, exactly when
    that id is truthy, and the [nodes] template under the plural name
    otherwise.  [QueryBuilder.buildQuery] returns the [nodes] template
    under the plural name when it is given no filter. *)
Theorem buildQuery_shape `{Inflection} `{GraphQLTag} `{ArgumentsInterface}
    (models : gmap string Model) (modelName : string) (m : Model) :
  builds (Monolith_lookup models) None (inr modelName) ->
  Monolith.getModel models modelName = Ok m ->
  exists fuel0 relations relations', forall fuel, fuel0 <= fuel ->
    (Monolith.buildRelationsQuery models fuel m None = Ok relations
     /\ forall filter,
          Monolith.buildQuery models (S fuel) modelName filter =
          gql ("{ " +:+
               (if truthy (Monolith.filter_id filter)
                then Monolith.record_field m
                       ("(id: " +:+ ToString (Monolith.filter_id filter) +:+ ")")
                       relations
                else Monolith.nodes_field m EmptyString relations)
               +:+ " }"))
    /\ (QueryBuilder.buildRelationsQuery (VuexORMApollo.getModel models) fuel m None
        = Ok relations'
        /\ QueryBuilder.buildQuery (VuexORMApollo.getModel models) (S fuel) modelName None =
           gql ("{ " +:+
                QueryBuilder.nodes_field (pluralName m) EmptyString
                  (QueryBuilder.fields_text m relations')
                +:+ " }")).
Proof.
  intros Hbuilds Hmodel.
  assert (Hmodel' : VuexORMApollo.getModel models (inr modelName) = Ok m).
  { unfold Monolith.getModel in Hmodel. unfold VuexORMApollo.getModel.
    destruct (models !! singularize modelName); [exact Hmodel | discriminate]. }
  destruct (Monolith_buildField_shape models None modelName m true None Hbuilds Hmodel)
    as (fuel0 & relations & _ & Hplugin).
  destruct (buildField_shape (VuexORMApollo.getModel models) None (inr modelName) m
              true None false None EmptyString
              (builds_same_registry models None _ Hbuilds) Hmodel' eq_refl)
    as (fuel1 & relations' & _ & Hbuilder).
  exists (Nat.max fuel0 fuel1), relations, relations'. intros fuel Hfuel.
  destruct (Hplugin fuel ltac:(lia)) as [Hrelations _].
  destruct (Hbuilder fuel ltac:(lia)) as [Hrelations' Hroot].
  repeat split; try assumption.
  - intros filter. unfold Monolith.buildQuery.
    rewrite Monolith_buildField_step, Hmodel, bind_Ok, Hrelations, bind_Ok.
    unfold Monolith.id_params.
    now destruct (truthy (Monolith.filter_id filter)).
  - unfold QueryBuilder.buildQuery. now rewrite bind_Ok, Hroot.
Qed.

(** Read as plain JavaScript, a filter object has no method [get]: with
    that reading [QueryBuilder.buildQuery] throws on every filter it is
    given, before it builds anything. *)
Lemma buildQuery_without_get_throws `{GraphQLTag}
    (getModel : Model + string -> outcome Model) (fuel : nat) (modelName : string)
    (args : object) :
  QueryBuilder.buildQuery (H1 := Fixtures.get_is_no_function) getModel fuel modelName
    (Some args) = Throw TypeError.
Proof. reflexivity. Qed.

(** Settles [builds] on a concrete registry: looks the model up, lists
    its relations and walks on from those the guard lets through. *)
Ltac walk :=
  eapply builds_model;
  [ vm_compute; reflexivity
  | let name := fresh "name" in
    let field := fresh "field" in
    let Hin := fresh "Hin" in
    let Hfollows := fresh "Hfollows" in
    intros name field Hin Hfollows;
    vm_compute in Hin;
    repeat (destruct Hin as [Hin|Hin];
            [ injection Hin as <- <-;
              first [ vm_compute in Hfollows; discriminate Hfollows | walk ]
            | ]);
    destruct Hin ].

Lemma blog_builds :
  builds (VuexORMApollo.getModel (H := Fixtures.regular_nouns) Fixtures.blog)
    None (inr "users")
  /\ builds (Monolith_lookup (H := Fixtures.regular_nouns) Fixtures.blog)
       None (inr "users").
Proof. split; walk. Qed.

Lemma library_builds :
  builds (VuexORMApollo.getModel (H := Fixtures.regular_nouns) Fixtures.library)
    None (inr "authors").
Proof. walk. Qed.

Lemma buildQuery_shape_witness :
  exists fuel0 relations relations', forall fuel, fuel0 <= fuel ->
    (Monolith.buildRelationsQuery (H := Fixtures.regular_nouns) Fixtures.blog fuel
       (new_Model (H := Fixtures.regular_nouns) Fixtures.User) None = Ok relations
     /\ Monolith.buildQuery (H := Fixtures.regular_nouns) (H0 := Fixtures.source_text)
          Fixtures.blog (S fuel) "users" (Some [("id", VNum 1)]) =
        Ok ("{ " +:+
            Monolith.record_field
              (new_Model (H := Fixtures.regular_nouns) Fixtures.User)
              "(id: 1)" relations
            +:+ " }")
     /\ Monolith.buildQuery (H := Fixtures.regular_nouns) (H0 := Fixtures.source_text)
          Fixtures.blog (S fuel) "users" (Some [("active", VBool true)]) =
        Ok ("{ " +:+
            Monolith.nodes_field
              (new_Model (H := Fixtures.regular_nouns) Fixtures.User)
              EmptyString relations
            +:+ " }"))
    /\ QueryBuilder.buildQuery (H0 := Fixtures.source_text)
         (H1 := Fixtures.get_is_no_function)
         (VuexORMApollo.getModel (H := Fixtures.regular_nouns) Fixtures.blog)
         (S fuel) "users" None =
       Ok ("{ " +:+
           QueryBuilder.nodes_field "users" EmptyString
             (QueryBuilder.fields_text
                (new_Model (H := Fixtures.regular_nouns) Fixtures.User) relations')
           +:+ " }").
Proof.
  destruct (@buildQuery_shape
              Fixtures.regular_nouns Fixtures.source_text Fixtures.get_is_no_function
              Fixtures.blog "users"
              (new_Model (H := Fixtures.regular_nouns) Fixtures.User))
    as (fuel0 & relations & relations' & Hshape).
  - apply blog_builds.
  - vm_compute; reflexivity.
  - exists fuel0, relations, relations'. intros fuel Hfuel.
    destruct (Hshape fuel Hfuel) as [[Hrelations Hplugin] [_ Hbuilder]].
    repeat split.
    + exact Hrelations.
    + now rewrite Hplugin.
    + now rewrite Hplugin.
    + exact Hbuilder.
Defined.

(** The filter [{id: 0}] has an [id] key, and the earlier plugin builds
    the [nodes] query for it, which is not the query of a single record. *)
Lemma buildQuery_id_zero_counterexample :
  let filter := Some [("id", VNum 0)] in
  let buildQuery :=
    Monolith.buildQuery (H := Fixtures.regular_nouns) (H0 := Fixtures.source_text)
      Fixtures.blog 3 "users" filter in
  let buildField multiple :=
    Monolith.buildField (H := Fixtures.regular_nouns) Fixtures.blog 3 "users"
      multiple filter None in
  obj_has [("id", VNum 0)] "id" = true
  /\ buildQuery = (field ← buildField true; Ok ("{ " +:+ field +:+ " }"))
  /\ buildQuery <> (field ← buildField false; Ok ("{ " +:+ field +:+ " }"))
  /\ exists text, buildQuery = Ok text.
Proof.
  cbv zeta. repeat split.
  - vm_compute. discriminate.
  - eexists. vm_compute. reflexivity.
Qed.

(** ** The query builder: a cycle that does not pass through the root *)

(** One call of [buildField] on a concrete registry: the model found and
    the relations the loop goes through. *)
Ltac visit lookup model relations :=
  replace lookup with (Ok model) by (vm_compute; reflexivity);
  rewrite bind_Ok; cbn [QueryBuilder.buildArguments]; rewrite ?bind_Ok;
  unfold QueryBuilder.buildRelationsQuery, QueryBuilder.buildRelationsQuery_with,
    Monolith.buildRelationsQuery, Monolith.buildRelationsQuery_with;
  replace (getRelations model) with relations by (vm_compute; reflexivity);
  cbn [forEach].

(** The guard of the loop on a concrete root and name. *)
Ltac guarded root name answer :=
  replace (follows root name) with answer by (vm_compute; reflexivity).

Section Forum.
Import Fixtures.

(** Below the root [users], comments ask for their post and posts for
    their comments: neither call returns, whatever the fuel. *)
Lemma forum_cycle (fuel : nat) :
  QueryBuilder.buildField forum_getModel fuel (inr "comments") true None false
    (Some member) None = OutOfFuel
  /\ QueryBuilder.buildField forum_getModel fuel (inr "post") false None false
       (Some member) None = OutOfFuel.
Proof.
  induction fuel as [|fuel [IHcomments IHpost]]; [split; reflexivity|].
  split; rewrite buildField_step.
  - visit (forum_getModel (inr "comments")) comment
      [("user", belongsTo "users"); ("post", belongsTo "posts")].
    guarded (Some member) "user" false. guarded (Some member) "post" true.
    rewrite bind_Ok. cbn [default from_option id constructor_name belongsTo].
    change (negb (String.eqb "BelongsTo" "BelongsTo")) with false.
    now rewrite IHpost.
  - visit (forum_getModel (inr "post")) article
      [("user", belongsTo "users"); ("comments", hasMany "comments")].
    guarded (Some member) "user" false. guarded (Some member) "comments" true.
    rewrite bind_Ok. cbn [default from_option id constructor_name hasMany].
    change (negb (String.eqb "HasMany" "BelongsTo")) with true.
    now rewrite IHcomments.
Qed.

Lemma forum_posts (fuel : nat) :
  QueryBuilder.buildField forum_getModel fuel (inr "posts") true None false
    (Some member) None = OutOfFuel.
Proof.
  destruct fuel as [|fuel]; [reflexivity|]. rewrite buildField_step.
  visit (forum_getModel (inr "posts")) article
    [("user", belongsTo "users"); ("comments", hasMany "comments")].
  guarded (Some member) "user" false. guarded (Some member) "comments" true.
  rewrite bind_Ok. cbn [default from_option id constructor_name hasMany].
  change (negb (String.eqb "HasMany" "BelongsTo")) with true.
  now rewrite (proj1 (forum_cycle fuel)).
Qed.

Lemma Monolith_forum_cycle (fuel : nat) :
  Monolith.buildField (H := regular_nouns) forum fuel "comments" true None
    (Some member) = OutOfFuel
  /\ Monolith.buildField (H := regular_nouns) forum fuel "post" false None
       (Some member) = OutOfFuel.
Proof.
  induction fuel as [|fuel [IHcomments IHpost]]; [split; reflexivity|].
  split; rewrite Monolith_buildField_step.
  - visit (Monolith.getModel (H := regular_nouns) forum "comments") comment
      [("user", belongsTo "users"); ("post", belongsTo "posts")].
    guarded (Some member) "user" false. guarded (Some member) "post" true.
    rewrite bind_Ok. cbn [default from_option id constructor_name belongsTo].
    change (negb (String.eqb "BelongsTo" "BelongsTo")) with false.
    now rewrite IHpost.
  - visit (Monolith.getModel (H := regular_nouns) forum "post") article
      [("user", belongsTo "users"); ("comments", hasMany "comments")].
    guarded (Some member) "user" false. guarded (Some member) "comments" true.
    rewrite bind_Ok. cbn [default from_option id constructor_name hasMany].
    change (negb (String.eqb "HasMany" "BelongsTo")) with true.
    now rewrite IHcomments.
Qed.

Lemma Monolith_forum_posts (fuel : nat) :
  Monolith.buildField (H := regular_nouns) forum fuel "posts" true None
    (Some member) = OutOfFuel.
Proof.
  destruct fuel as [|fuel]; [reflexivity|]. rewrite Monolith_buildField_step.
  visit (Monolith.getModel (H := regular_nouns) forum "posts") article
    [("user", belongsTo "users"); ("comments", hasMany "comments")].
  guarded (Some member) "user" false. guarded (Some member) "comments" true.
  rewrite bind_Ok. cbn [default from_option id constructor_name hasMany].
  change (negb (String.eqb "HasMany" "BelongsTo")) with true.
  now rewrite (proj1 (Monolith_forum_cycle fuel)).
Qed.

(** C1, at the failing input.  In the forum every cycle is a pair of a
    [hasMany] and a [belongsTo]; the query for [users], the root, is
    never built: with any fuel the walk is still going round posts and
    comments.  So it is in the query builder and in the earlier plugin. *)
Theorem buildQuery_forum_never_returns `{GraphQLTag} `{ArgumentsInterface}
    (fuel : nat) :
  QueryBuilder.buildQuery forum_getModel fuel "users" None = OutOfFuel
  /\ Monolith.buildQuery (H := regular_nouns) forum fuel "users" None = OutOfFuel.
Proof.
  split.
  - unfold QueryBuilder.buildQuery. rewrite bind_Ok.
    destruct fuel as [|fuel]; [reflexivity|]. rewrite buildField_step.
    visit (forum_getModel (inr "users")) member
      [("posts", hasMany "posts"); ("comments", hasMany "comments")].
    cbn [follows].
    cbn [default from_option id constructor_name hasMany].
    change (negb (String.eqb "HasMany" "BelongsTo")) with true.
    now rewrite forum_posts.
  - unfold Monolith.buildQuery. cbn [Monolith.filter_id truthy negb].
    destruct fuel as [|fuel]; [reflexivity|]. rewrite Monolith_buildField_step.
    visit (Monolith.getModel (H := regular_nouns) forum "users") member
      [("posts", hasMany "posts"); ("comments", hasMany "comments")].
    cbn [follows].
    cbn [default from_option id constructor_name hasMany].
    change (negb (String.eqb "HasMany" "BelongsTo")) with true.
    now rewrite Monolith_forum_posts.
Qed.

End Forum.

(** ** Fetching with a filter *)

Section Fetch.
Import Fixtures.

(** C5, at the failing inputs.  On the blog, [QueryBuilder] renders the
    filter [{id: 1}] without an argument, whichever template is chosen;
    it renders [{active: true}] as the literal [(active: "true")] on the
    root field; and [fetch] hands the transport the document alone. *)
Theorem fetch_filter_rendered_inline :
  let getModel := VuexORMApollo.getModel (H := regular_nouns) blog in
  let user := new_Model (H := regular_nouns) User in
  let post := new_Model (H := regular_nouns) Post in
  let posts :=
    QueryBuilder.nodes_field "posts" EmptyString (QueryBuilder.fields_text post []) in
  let fields := QueryBuilder.fields_text user [posts] in
  let literal := "(active: " +:+ dquote +:+ "true" +:+ dquote +:+ ")" in
  QueryBuilder.buildField getModel 3 (inr "users") false (Some [("id", VNum 1)])
    false None None = Ok (QueryBuilder.record_field "user" EmptyString fields)
  /\ QueryBuilder.buildField getModel 3 (inr "users") true (Some [("id", VNum 1)])
       false None None = Ok (QueryBuilder.nodes_field "users" EmptyString fields)
  /\ QueryBuilder.buildField getModel 3 (inr "users") true
       (Some [("active", VBool true)]) false None None
     = Ok (QueryBuilder.nodes_field "users" literal fields)
  /\ requests
       (snd (run (VuexORMApollo.fetch (H := regular_nouns) (H1 := talkative)
                    (H2 := get_reads_property) (H3 := list_store)
                    blog 3 "users" (Some [("active", VBool true)]))
                 the_world))
     = [@Query source_text
          ("{ " +:+ QueryBuilder.nodes_field "users" literal fields +:+ " }")].
Proof. cbv zeta. repeat split; vm_compute; reflexivity. Qed.

End Fetch.

(** ** Further properties of the query builder and of the plugin *)

(** Calls that each return from some fuel on return from a common one. *)
Lemma each_returns_gathered {A : Type} (call : nat -> A -> outcome string)
    (l : list A) :
  (forall x, In x l ->
             exists fuel0 text, forall fuel, fuel0 <= fuel -> call fuel x = Ok text) ->
  exists fuel0 texts,
    Forall2 (fun x text => forall fuel, fuel0 <= fuel -> call fuel x = Ok text) l texts.
Proof.
  induction l as [|x l IH]; intros Hall.
  - exists 0, []. constructor.
  - destruct (Hall x) as (fuel1 & text & Htext); [now left|].
    destruct IH as (fuel2 & texts & Htexts); [intros y Hy; apply Hall; now right|].
    exists (Nat.max fuel1 fuel2), (text :: texts). constructor.
    + intros fuel Hfuel. apply Htext. lia.
    + eapply Forall2_impl; [exact Htexts|].
      intros y t Hy fuel Hfuel. apply Hy. lia.
Qed.

(** At the root the loop of [buildRelationsQuery] calls [buildField] for
    every relation, in order, and returns what the calls return. *)
Lemma root_relations_gathered
    (buildField : Model + string -> bool -> option object -> bool ->
                  option Model -> option string -> outcome string)
    (m : Model) (queries : list string) :
  Forall2
    (fun (kv : string * Field) query =>
       buildField (inr (fst kv))
         (negb (String.eqb (constructor_name (snd kv)) "BelongsTo"))
         None false (Some m) None = Ok query)
    (getRelations m) queries ->
  QueryBuilder.buildRelationsQuery_with buildField m None = Ok queries.
Proof.
  unfold QueryBuilder.buildRelationsQuery_with.
  generalize (getRelations m) as relations. intros relations Hall.
  enough (Hacc : forall acc,
             forEach
               (fun relationQueries (kv : string * Field) =>
                  let '(name, field) := kv in
                  q ← buildField (inr name)
                        (negb (String.eqb (constructor_name field) "BelongsTo"))
                        None false (Some m) None;
                  Ok (relationQueries ++ [q]))
               relations acc = Ok (acc ++ queries))
    by apply (Hacc []).
  induction Hall as [|[name field] query relations queries Hquery _ IH]; intros acc.
  - cbn. now rewrite app_nil_r.
  - cbn [forEach]. cbn [fst snd] in Hquery.
    rewrite Hquery. cbn. rewrite IH.
    now rewrite <- app_assoc.
Qed.

(** X1. At the root nothing is guarded: when the walk from a registered
    model ends, [buildField] returns, once the fuel suffices, the
    template of its flag around the model's queried fields and the
    queries of the model's relations, one for each relation and in their
    order: what [buildField] returns for the relation's name, as a list
    unless the relation is a [BelongsTo], without arguments and with the
    model as the root. *)
Theorem root_field_one_query_per_relation
    (getModel : Model + string -> outcome Model) (modelName : string) (m : Model)
    (multiple : bool) (args : option object) (params : string) :
  builds getModel None (inr modelName) ->
  getModel (inr modelName) = Ok m ->
  QueryBuilder.buildArguments args false false = Ok params ->
  exists fuel0 relations,
    Forall2
      (fun (kv : string * Field) query =>
         forall fuel, fuel0 <= fuel ->
           QueryBuilder.buildField getModel fuel (inr (fst kv))
             (negb (String.eqb (constructor_name (snd kv)) "BelongsTo"))
             None false (Some m) None = Ok query)
      (getRelations m) relations
    /\ forall fuel, fuel0 <= fuel ->
      QueryBuilder.buildField getModel (S fuel) (inr modelName) multiple args false
        None None =
      Ok (if multiple
          then QueryBuilder.nodes_field (pluralName m) params
                 (QueryBuilder.fields_text m relations)
          else QueryBuilder.record_field (singularName m) params
                 (QueryBuilder.fields_text m relations)).
Proof.
  intros Hbuilds Hmodel Hparams.
  inversion Hbuilds as [rootModel model m' Hmodel' Hrelations]; subst.
  assert (m' = m) as -> by congruence.
  destruct (each_returns_gathered
              (fun fuel (kv : string * Field) =>
                 QueryBuilder.buildField getModel fuel (inr (fst kv))
                   (negb (String.eqb (constructor_name (snd kv)) "BelongsTo"))
                   None false (Some m) None)
              (getRelations m))
    as (fuel0 & relations & Hall).
  { intros [name field] Hin.
    apply (buildField_returns getModel (Some m) (inr name)
             (Hrelations name field Hin eq_refl) _ None false None EmptyString eq_refl). }
  exists fuel0, relations. split; [exact Hall|].
  intros fuel Hfuel.
  rewrite buildField_step, Hmodel, bind_Ok, Hparams, bind_Ok.
  unfold QueryBuilder.buildRelationsQuery.
  rewrite (root_relations_gathered _ m relations).
  - now destruct multiple.
  - eapply Forall2_impl; [exact Hall|]. intros kv query Hquery. now apply Hquery.
Qed.

Lemma root_field_one_query_per_relation_witness :
  exists fuel0 relations,
    Forall2
      (fun (kv : string * Field) query =>
         forall fuel, fuel0 <= fuel ->
           QueryBuilder.buildField
             (VuexORMApollo.getModel (H := Fixtures.regular_nouns) Fixtures.blog)
             fuel (inr (fst kv))
             (negb (String.eqb (constructor_name (snd kv)) "BelongsTo"))
             None false
             (Some (new_Model (H := Fixtures.regular_nouns) Fixtures.User)) None
           = Ok query)
      (getRelations (new_Model (H := Fixtures.regular_nouns) Fixtures.User)) relations
    /\ forall fuel, fuel0 <= fuel ->
      QueryBuilder.buildField
        (VuexORMApollo.getModel (H := Fixtures.regular_nouns) Fixtures.blog)
        (S fuel) (inr "users") true None false None None =
      Ok (QueryBuilder.nodes_field "users" EmptyString
            (QueryBuilder.fields_text
               (new_Model (H := Fixtures.regular_nouns) Fixtures.User) relations)).
Proof.
  apply (root_field_one_query_per_relation
           (VuexORMApollo.getModel (H := Fixtures.regular_nouns) Fixtures.blog)
           "users" (new_Model (H := Fixtures.regular_nouns) Fixtures.User)
           true None EmptyString).
  - apply blog_builds.
  - vm_compute; reflexivity.
  - reflexivity.
Defined.

(** X3. The walk goes on below the first level: in a library of authors,
    books and chapters the query for authors asks for the chapters of
    their books. *)
Theorem library_query_nests_two_levels :
  let getModel := VuexORMApollo.getModel (H := Fixtures.regular_nouns) Fixtures.library in
  let author := new_Model (H := Fixtures.regular_nouns) Fixtures.Author in
  let book := new_Model (H := Fixtures.regular_nouns) Fixtures.Book in
  let chapter := new_Model (H := Fixtures.regular_nouns) Fixtures.Chapter in
  let chapters :=
    QueryBuilder.nodes_field "chapters" EmptyString (QueryBuilder.fields_text chapter []) in
  let books :=
    QueryBuilder.nodes_field "books" EmptyString
      (QueryBuilder.fields_text book [chapters]) in
  QueryBuilder.buildField getModel 3 (inr "authors") true None false None None =
  Ok (QueryBuilder.nodes_field "authors" EmptyString
        (QueryBuilder.fields_text author [books])).
Proof. vm_compute. reflexivity. Qed.

Section Destroy.
Context `{Inflection} `{ApolloClient} `{Store}.
Variable models : gmap string Model.
Variable buildMutation : Model -> value -> string -> outcome Document.

(** X4. [destroy] with an id sends one [delete] mutation with the variables
    [{id}] and settles as the transport does; it dispatches nothing and
    leaves the store as it was. *)
Theorem destroy_sends_id (name : string) (id : value) (model : Model)
    (query : Document) (w : World) :
  VuexORMApollo.getModel models (inr name) = Ok model ->
  truthy id = true ->
  buildMutation model id "delete" = Ok query ->
  let '(r, w') := run (VuexORMApollo.destroy models buildMutation name id) w in
  r = (_ ← apollo_mutate query [("id", id)]; Ok tt)
  /\ requests w' = requests w ++ [Mutate query [("id", id)]]
  /\ dispatched w' = dispatched w
  /\ store w' = store w.
Proof.
  intros Hmodel Hid Hquery. unfold VuexORMApollo.destroy.
  rewrite run_bind. cbn [sync run]. rewrite Hmodel, Hid.
  rewrite run_bind. cbn [sync run]. rewrite Hquery.
  rewrite run_bind. cbn [await_mutate run].
  destruct (apollo_mutate query [("id", id)]); cbn; auto.
Qed.

End Destroy.

Lemma destroy_sends_id_witness :
  requests
    (snd (run (VuexORMApollo.destroy (H := Fixtures.regular_nouns)
                 (H1 := Fixtures.offline) (H3 := Fixtures.list_store)
                 Fixtures.blog Fixtures.named_mutation "users" (VNum 1))
              Fixtures.the_world))
  = [@Mutate Fixtures.source_text "delete user" [("id", VNum 1)]].
Proof.
  pose proof (@destroy_sends_id
                Fixtures.regular_nouns Fixtures.source_text Fixtures.offline
                Fixtures.list_store Fixtures.blog Fixtures.named_mutation
                "users" (VNum 1)
                (new_Model (H := Fixtures.regular_nouns) Fixtures.User)
                "delete user" Fixtures.the_world
                ltac:(vm_compute; reflexivity) ltac:(reflexivity)
                ltac:(vm_compute; reflexivity)) as Hdestroy.
  destruct (run _ Fixtures.the_world) as [r w'].
  destruct Hdestroy as (_ & Hrequests & _). cbn [snd]. rewrite Hrequests. reflexivity.
Defined.

Lemma forEach_ext {A S : Type} (f g : S -> A -> outcome S) (xs : list A) :
  (forall acc x, In x xs -> f acc x = g acc x) ->
  forall acc, forEach f xs acc = forEach g xs acc.
Proof.
  induction xs as [|x xs IH]; intros Hsame acc; [reflexivity|].
  cbn [forEach]. rewrite Hsame by now left.
  destruct (g acc x); cbn; [|reflexivity..].
  apply IH. intros acc' y Hin. apply Hsame. now right.
Qed.

(** X2. Below a root, [buildRelationsQuery] never asks [buildField] for a
    relation that bears the root's singular or plural name: its result is
    the same whatever [buildField] would answer for those names. *)
Theorem relations_never_name_root
    (buildField buildField' : Model + string -> bool -> option object -> bool ->
                              option Model -> option string -> outcome string)
    (m root : Model) :
  (forall name multiple rootModel,
      name <> singularName root -> name <> pluralName root ->
      buildField (inr name) multiple None false rootModel None =
      buildField' (inr name) multiple None false rootModel None) ->
  QueryBuilder.buildRelationsQuery_with buildField m (Some root) =
  QueryBuilder.buildRelationsQuery_with buildField' m (Some root).
Proof.
  intros Hsame. unfold QueryBuilder.buildRelationsQuery_with.
  apply forEach_ext. intros acc [name field] _.
  destruct (follows (Some root) name) eqn:Hfollows; [|reflexivity].
  cbn [follows] in Hfollows. apply andb_true_iff in Hfollows as [Hs Hp].
  apply negb_true_iff, String.eqb_neq in Hs, Hp.
  now rewrite (Hsame name _ _ Hs Hp).
Qed.

Lemma relations_never_name_root_witness :
  let getModel := VuexORMApollo.getModel (H := Fixtures.regular_nouns) Fixtures.blog in
  let user := new_Model (H := Fixtures.regular_nouns) Fixtures.User in
  let post := new_Model (H := Fixtures.regular_nouns) Fixtures.Post in
  QueryBuilder.buildRelationsQuery_with (QueryBuilder.buildField getModel 2)
    post (Some user) =
  QueryBuilder.buildRelationsQuery_with
    (fun model multiple args withVars rootModel name =>
       match model with
       | inr relation =>
           if String.eqb relation "user" || String.eqb relation "users"
           then Throw TypeError
           else QueryBuilder.buildField getModel 2 model multiple args withVars
                  rootModel name
       | inl _ =>
           QueryBuilder.buildField getModel 2 model multiple args withVars
             rootModel name
       end)
    post (Some user).
Proof.
  cbv zeta. apply relations_never_name_root.
  intros name multiple rootModel Hsingular Hplural.
  change (singularName (new_Model Fixtures.User)) with "user" in Hsingular.
  change (pluralName (new_Model Fixtures.User)) with "users" in Hplural.
  apply String.eqb_neq in Hsingular, Hplural.
  now rewrite Hsingular, Hplural.
Defined.

(** ** The model descriptor and the registry *)

Lemma Map_set_fresh {V : Type} (m : list (string * V)) (key : string) (v : V) :
  Map_has m key = false -> Map_set m key v = m ++ [(key, v)].
Proof.
  unfold Map_has. induction m as [|[k x] m IH]; cbn [existsb fst Map_set]; [reflexivity|].
  intros Hfresh. apply orb_false_iff in Hfresh as [Hk Hm].
  rewrite Hk, IH by assumption. reflexivity.
Qed.

Lemma Map_has_app {V : Type} (m m' : list (string * V)) (key : string) :
  Map_has (m ++ m') key = Map_has m key || Map_has m' key.
Proof. unfold Map_has. apply existsb_app. Qed.

Lemma Map_has_false {V : Type} (m : list (string * V)) (key : string) :
  ~ In key (map fst m) -> Map_has m key = false.
Proof.
  intros Hnotin. destruct (Map_has m key) eqn:Hhas; [|reflexivity].
  now apply Map_has_true in Hhas.
Qed.

Lemma fold_left_same {A B : Type} (f g : A -> B -> A) (l : list B) :
  (forall a x, f a x = g a x) -> forall a, fold_left f l a = fold_left g l a.
Proof.
  intros Hsame. induction l as [|x l IH]; intros a; cbn [fold_left]; [reflexivity|].
  now rewrite Hsame, IH.
Qed.

(** Entries with fresh keys, each once, are set in their order, those
    that are kept. *)
Lemma Map_set_each {V : Type} (keep : string * V -> bool) (l acc : list (string * V)) :
  NoDup (map fst l) ->
  (forall k, In k (map fst l) -> Map_has acc k = false) ->
  fold_left (fun m kv => if keep kv then Map_set m (fst kv) (snd kv) else m) l acc =
  acc ++ List.filter keep l.
Proof.
  revert acc. induction l as [|[k x] l IH]; intros acc Hnd Hfresh; cbn [fold_left List.filter].
  - now rewrite app_nil_r.
  - cbn [map fst] in Hnd. apply NoDup_cons in Hnd as [Hnotin Hnd].
    rewrite list_elem_of_In in Hnotin.
    destruct (keep (k, x)); cbn [fst snd].
    + rewrite Map_set_fresh by (apply Hfresh; now left).
      rewrite IH; [now rewrite <- app_assoc | assumption |].
      intros k' Hk'. rewrite Map_has_app, Hfresh by now right.
      unfold Map_has. cbn [existsb fst].
      destruct (String.eqb_spec k k') as [->|]; [contradiction | reflexivity].
    + apply IH; [assumption|]. intros k' Hk'. apply Hfresh. now right.
Qed.

(** X5. When the entity declares each field once, as an object does, the
    model keeps the declared fields in their order; its relations are the
    declared fields that are no [Attr], in that order; and the queried
    names are those of the [Attr] fields whose name does not end in [Id],
    in that order. *)
Theorem Model_views_of_declared_fields `{Inflection} (base : ORMModel) :
  NoDup (map fst (ORM_fields base)) ->
  fields (new_Model base) = ORM_fields base
  /\ getRelations (new_Model base) = List.filter is_relation (ORM_fields base)
  /\ getQueryFields (new_Model base) = map fst (List.filter is_queried (ORM_fields base)).
Proof.
  intros Hnd.
  assert (Hfields : fields (new_Model base) = ORM_fields base).
  { cbn [fields new_Model].
    pose proof (Map_set_each (fun _ => true) (ORM_fields base) [] Hnd
                  ltac:(reflexivity)) as Hall.
    cbv beta iota in Hall. rewrite Hall. cbn [app].
    clear. induction (ORM_fields base) as [|kv l IH]; cbn; [reflexivity | now rewrite IH]. }
  split; [assumption|]. split.
  - unfold getRelations. rewrite Hfields.
    rewrite (fold_left_same _
               (fun m kv => if is_relation kv then Map_set m (fst kv) (snd kv) else m))
      by (intros m [name field]; reflexivity).
    now rewrite Map_set_each by (auto; reflexivity).
  - rewrite getQueryFields_filter, Hfields. reflexivity.
Qed.

Lemma Model_views_of_declared_fields_witness :
  getRelations (new_Model (H := Fixtures.regular_nouns) Fixtures.Article) =
  [("user", Fixtures.belongsTo "users"); ("comments", Fixtures.hasMany "comments")]
  /\ getQueryFields (new_Model (H := Fixtures.regular_nouns) Fixtures.Article) =
     ["id"; "content"; "title"].
Proof.
  destruct (@Model_views_of_declared_fields Fixtures.regular_nouns Fixtures.Article)
    as (_ & Hrelations & Hqueried).
  - cbn. repeat constructor; rewrite list_elem_of_In; cbn; intuition discriminate.
  - rewrite Hrelations, Hqueried. split; reflexivity.
Defined.

Lemma find_over_app {A : Type} (f : A -> bool) (l l' : list A) :
  List.find f (l ++ l') =
  match List.find f l with
  | Some x => Some x
  | None => List.find f l'
  end.
Proof.
  induction l as [|x l IH]; cbn [app List.find]; [reflexivity|].
  now destruct (f x).
Qed.

Lemma find_nowhere {A : Type} (f : A -> bool) (l : list A) :
  (forall x, In x l -> f x = false) -> List.find f l = None.
Proof.
  induction l as [|x l IH]; intros Hall; cbn [List.find]; [reflexivity|].
  rewrite Hall by now left. apply IH. intros y Hy. apply Hall. now right.
Qed.

Section Registry.
Context `{Inflection}.

(** What the loop of [collectModels] leaves under a key. *)
Lemma collectModels_lookup (entities : list ORMModel) (init : gmap string Model)
    (key : string) :
  fold_left
    (fun models base => let model := new_Model base in
                        <[singularName model := model]> models)
    entities init !! key =
  match filed_under entities key with
  | Some base => Some (new_Model base)
  | None => init !! key
  end.
Proof.
  unfold filed_under. revert init.
  induction entities as [|base entities IH]; intros init; cbn [fold_left rev].
  - reflexivity.
  - rewrite IH, find_over_app.
    destruct (List.find _ (rev entities)); [reflexivity|].
    cbn [List.find singularName new_Model].
    destruct (String.eqb_spec (singularize (entity base)) key) as [->|Hne].
    + apply lookup_insert_eq.
    + now apply lookup_insert_ne.
Qed.

Lemma filed_under_last (before after : list ORMModel) (base : ORMModel) (key : string) :
  singularize (entity base) = key ->
  (forall b, In b after -> singularize (entity b) <> key) ->
  filed_under (before ++ base :: after) key = Some base.
Proof.
  intros Hkey Hafter. unfold filed_under.
  rewrite rev_app_distr. cbn [rev]. rewrite <- app_assoc, find_over_app.
  replace (List.find _ (rev after)) with (@None ORMModel).
  - cbn [app List.find]. now rewrite Hkey, String.eqb_refl.
  - symmetry. apply find_nowhere. intros b Hb. apply in_rev in Hb.
    apply String.eqb_neq. now apply Hafter.
Qed.

Lemma filed_under_none (entities : list ORMModel) (key : string) :
  (forall b, In b entities -> singularize (entity b) <> key) ->
  filed_under entities key = None.
Proof.
  intros Hall. apply find_nowhere. intros b Hb. apply in_rev in Hb.
  apply String.eqb_neq. now apply Hall.
Qed.

(** X6. The registry files each entity under the singular form of its
    name, and [getModel] looks a name up under its singular form: a name
    with the singular form of an entity finds the model of the last such
    entity of the database, in both revisions of the plugin; a model is
    handed back as it is. *)
Theorem collectModels_last_wins (before after : list ORMModel) (base : ORMModel)
    (name : string) :
  singularize name = singularize (entity base) ->
  (forall b, In b after -> singularize (entity b) <> singularize (entity base)) ->
  let models := collectModels (before ++ base :: after) in
  VuexORMApollo.getModel models (inr name) = Ok (new_Model base)
  /\ Monolith.getModel models name = Ok (new_Model base)
  /\ forall m, VuexORMApollo.getModel models (inl m) = Ok m.
Proof.
  intros Hname Hafter models.
  assert (Hlookup : models !! singularize name = Some (new_Model base)).
  { unfold models, collectModels. rewrite collectModels_lookup.
    rewrite (filed_under_last before after base); [reflexivity | now symmetry |].
    rewrite Hname. exact Hafter. }
  unfold VuexORMApollo.getModel, Monolith.getModel. rewrite Hlookup. auto.
Qed.

(** X7. A name whose singular form is that of no entity is refused.  The
    message of the earlier revision names it; the later one interpolates
    the variable the failed lookup has just overwritten. *)
Theorem getModel_unknown_name (entities : list ORMModel) (name : string) :
  (forall b, In b entities -> singularize (entity b) <> singularize name) ->
  VuexORMApollo.getModel (collectModels entities) (inr name) =
    Throw (Error "No such model undefined!")
  /\ Monolith.getModel (collectModels entities) name =
    Throw (Error ("No such model " +:+ name +:+ "!")).
Proof.
  intros Hall.
  assert (Hlookup : collectModels entities !! singularize name = None).
  { unfold collectModels. rewrite collectModels_lookup.
    now rewrite filed_under_none by assumption. }
  unfold VuexORMApollo.getModel, Monolith.getModel. now rewrite Hlookup.
Qed.

End Registry.

Lemma collectModels_last_wins_witness :
  VuexORMApollo.getModel (H := Fixtures.regular_nouns)
    (collectModels (H := Fixtures.regular_nouns)
       [Fixtures.User; Fixtures.Member; Fixtures.Post])
    (inr "user")
  = Ok (new_Model (H := Fixtures.regular_nouns) Fixtures.Member).
Proof.
  apply (@collectModels_last_wins Fixtures.regular_nouns
           [Fixtures.User] [Fixtures.Post] Fixtures.Member "user").
  - reflexivity.
  - intros b [<-|[]]. vm_compute. discriminate.
Defined.

Lemma getModel_unknown_name_witness :
  VuexORMApollo.getModel (H := Fixtures.regular_nouns) Fixtures.blog (inr "comments")
  = Throw (Error "No such model undefined!")
  /\ Monolith.getModel (H := Fixtures.regular_nouns) Fixtures.blog "comments"
     = Throw (Error "No such model comments!").
Proof.
  apply (@getModel_unknown_name Fixtures.regular_nouns
           [Fixtures.User; Fixtures.Post] "comments").
  intros b [<-|[<-|[]]]; vm_compute; discriminate.
Defined.

(** ** The plugin: what an action sends and dispatches *)

Section Actions.
Context `{Inflection} `{ApolloClient} `{ArgumentsInterface} `{Store}.
Variable models : gmap string Model.
Variable buildMutation : Model -> value -> string -> outcome Document.

(** X8. An action on an entity that is not registered is refused before
    anything is sent or dispatched: [persist], [push], [destroy] and
    [fetch] reject with the error of [getModel] and leave the world as it
    was; so does the [fetch] of the earlier revision, with its message. *)
Theorem unknown_model_rejects_before_any_request (name : string) (id : value)
    (data : option StoreRecord) (filter : option object) (fuel : nat) (w : World) :
  models !! singularize name = None ->
  (forall a, filter = Some a -> exists v, Arguments_get a "id" = Ok v) ->
  run (VuexORMApollo.persist models buildMutation name id) w =
    (Throw (Error "No such model undefined!"), w)
  /\ run (VuexORMApollo.push models buildMutation name data) w =
    (Throw (Error "No such model undefined!"), w)
  /\ run (VuexORMApollo.destroy models buildMutation name id) w =
    (Throw (Error "No such model undefined!"), w)
  /\ run (VuexORMApollo.fetch models (S fuel) name filter) w =
    (Throw (Error "No such model undefined!"), w)
  /\ run (Monolith.fetch models (S fuel) name filter) w =
    (Throw (Error ("No such model " +:+ name +:+ "!")), w).
Proof.
  intros Hmodel Hget.
  assert (Hrefused : VuexORMApollo.getModel models (inr name) =
                     Throw (Error "No such model undefined!")).
  { unfold VuexORMApollo.getModel. now rewrite Hmodel. }
  assert (Hrefused' : Monolith.getModel models name =
                      Throw (Error ("No such model " +:+ name +:+ "!"))).
  { unfold Monolith.getModel. now rewrite Hmodel. }
  repeat split.
  - unfold VuexORMApollo.persist. rewrite run_bind. cbn [sync run]. now rewrite Hrefused.
  - unfold VuexORMApollo.push. rewrite run_bind. cbn [sync run]. now rewrite Hrefused.
  - unfold VuexORMApollo.destroy. rewrite run_bind. cbn [sync run]. now rewrite Hrefused.
  - unfold VuexORMApollo.fetch. rewrite run_bind. cbn [sync run].
    unfold QueryBuilder.buildQuery.
    destruct filter as [a|]; [destruct (Hget a eq_refl) as [v ->]|];
      rewrite !bind_Ok, buildField_step, Hrefused; reflexivity.
  - unfold Monolith.fetch. rewrite run_bind. cbn [sync run].
    unfold Monolith.buildQuery. rewrite Monolith_buildField_step, Hrefused'.
    reflexivity.
Qed.

(** X9. With nothing to save or to delete the plugin sends nothing:
    [persist] of an id the store has no record for resolves with no
    record, [push] without data resolves with [undefined], [destroy] of
    an id that is not truthy resolves; the world is as it was. *)
Theorem nothing_to_save_sends_nothing (name : string) (id id' : value)
    (model : Model) (w : World) :
  VuexORMApollo.getModel models (inr name) = Ok model ->
  find (store w) (baseModel model) id = None ->
  truthy id' = false ->
  run (VuexORMApollo.persist models buildMutation name id) w = (Ok None, w)
  /\ run (VuexORMApollo.push models buildMutation name None) w = (Ok VUndefined, w)
  /\ run (VuexORMApollo.destroy models buildMutation name id') w = (Ok tt, w).
Proof.
  intros Hmodel Hfind Hid. repeat split.
  - unfold VuexORMApollo.persist.
    rewrite run_bind. cbn [sync run]. rewrite Hmodel.
    rewrite run_bind. cbn [getters_find run]. rewrite Hfind.
    rewrite run_bind. cbn [sync run].
    rewrite run_bind. cbn [VuexORMApollo.mutate mret Async_ret run getters_find].
    now rewrite Hfind.
  - unfold VuexORMApollo.push.
    rewrite run_bind. cbn [sync run]. now rewrite Hmodel.
  - unfold VuexORMApollo.destroy.
    rewrite run_bind. cbn [sync run]. now rewrite Hmodel, Hid.
Qed.

(** Each key of the data is dispatched, whether or not the store takes
    the action. *)
Lemma dispatch_each_run (name : string) (stored : object) (w : World) :
  run ((fix each (keys : list string) : Async unit :=
          match keys with
          | [] => mret tt
          | key :: keys' =>
              item ← sync (get_prop (VObj stored) key);
              _ ← unawaited (dispatch name (VObj [("data", item)]));
              each keys'
          end) (map fst stored)) w =
  (Ok tt,
   {| store := after_actions (store_actions name stored) (store w);
      requests := requests w;
      dispatched := dispatched w ++ store_actions name stored |}).
Proof.
  unfold store_actions. generalize (map fst stored) as keys. intros keys. revert w.
  induction keys as [|key keys IH]; intros w.
  - destruct w. cbn. now rewrite app_nil_r.
  - cbn [map after_actions fold_left].
    rewrite run_bind. cbn [sync run get_prop]. rewrite run_bind.
    cbn [unawaited run dispatch].
    destruct (dispatch_action _ (store w)) as [r s] eqn:Hdispatch. cbn [snd].
    rewrite IH. cbn [store requests dispatched].
    unfold after_actions. now rewrite <- app_assoc.
Qed.

(** X10. A [fetch] that is answered sends one query and dispatches one
    [insertOrUpdate] for each top-level field of the transformed answer,
    in order, with the data of that field; it resolves whatever the store
    makes of them, since no dispatch is awaited. *)
Theorem fetch_stores_each_field (fuel : nat) (name : string) (filter : option object)
    (query : Document) (data : value) (stored : object) (w : World) :
  QueryBuilder.buildQuery (VuexORMApollo.getModel models) fuel name filter = Ok query ->
  apollo_query query = Ok data ->
  QueryBuilder.transformIncomingData data false = Ok (VObj stored) ->
  run (VuexORMApollo.fetch models fuel name filter) w =
  (Ok tt,
   {| store := after_actions (store_actions "insertOrUpdate" stored) (store w);
      requests := requests w ++ [Query query];
      dispatched := dispatched w ++ store_actions "insertOrUpdate" stored |}).
Proof.
  intros Hquery Hdata Hstored. unfold VuexORMApollo.fetch.
  rewrite run_bind. cbn [sync run]. rewrite Hquery.
  rewrite run_bind. unfold VuexORMApollo.apolloRequest.
  rewrite run_bind. cbn [await_query run]. rewrite Hdata.
  cbn [sync run]. rewrite Hstored.
  unfold VuexORMApollo.insertData. rewrite run_bind. cbn [sync run Object_keys].
  now rewrite dispatch_each_run.
Qed.

(** X11. A [fetch] whose query the transport rejects, or whose answer
    cannot be transformed, rejects with that error after the one request;
    nothing is dispatched and the store is as it was. *)
Theorem fetch_failure_stores_nothing (fuel : nat) (name : string)
    (filter : option object) (query : Document) (e : error) (w : World) :
  QueryBuilder.buildQuery (VuexORMApollo.getModel models) fuel name filter = Ok query ->
  (data ← apollo_query query; QueryBuilder.transformIncomingData data false) = Throw e ->
  run (VuexORMApollo.fetch models fuel name filter) w =
  (Throw e,
   {| store := store w;
      requests := requests w ++ [Query query];
      dispatched := dispatched w |}).
Proof.
  intros Hquery Hfails. unfold VuexORMApollo.fetch.
  rewrite run_bind. cbn [sync run]. rewrite Hquery.
  rewrite run_bind. unfold VuexORMApollo.apolloRequest.
  rewrite run_bind. cbn [await_query run].
  destruct (apollo_query query) as [data| |]; cbn in Hfails; try discriminate.
  - cbn [sync run]. now rewrite Hfails.
  - now injection Hfails as ->.
Qed.

(** The earlier revision reads nothing of a filter but its id. *)
Lemma Monolith_buildField_filter (fuel : nat) (name : string) (multiple : bool)
    (filter filter' : option object) (rootModel : option Model) :
  Monolith.filter_id filter = Monolith.filter_id filter' ->
  Monolith.buildField models fuel name multiple filter rootModel =
  Monolith.buildField models fuel name multiple filter' rootModel.
Proof.
  intros Hid. destruct fuel as [|fuel]; [reflexivity|].
  rewrite !Monolith_buildField_step. unfold Monolith.id_params. now rewrite Hid.
Qed.

Lemma Monolith_buildQuery_filter (fuel : nat) (name : string)
    (filter filter' : option object) :
  Monolith.filter_id filter = Monolith.filter_id filter' ->
  Monolith.buildQuery models fuel name filter = Monolith.buildQuery models fuel name filter'.
Proof.
  intros Hid. unfold Monolith.buildQuery. rewrite Hid.
  now rewrite (Monolith_buildField_filter fuel name _ filter filter' None Hid).
Qed.

Lemma Monolith_fetch_query (fuel : nat) (name : string) (filter : option object) :
  Monolith.fetch models fuel name filter =
  (query ← sync (Monolith.buildQuery models fuel name filter);
   data ← Monolith.apolloRequest query;
   Monolith.storeData data).
Proof.
  unfold Monolith.fetch.
  destruct filter as [[|kv f]|]; try reflexivity.
  now rewrite (Monolith_buildQuery_filter fuel name (Some []) None).
Qed.

(** X12. The earlier revision's queries depend on the filter through its
    id alone: two filters with the same id give the same document and the
    same run of [fetch]; an empty filter is as good as none. *)
Theorem Monolith_filter_only_through_id (fuel : nat) (name : string)
    (filter filter' : option object) (w : World) :
  obj_get (default [] filter) "id" = obj_get (default [] filter') "id" ->
  Monolith.buildQuery models fuel name filter = Monolith.buildQuery models fuel name filter'
  /\ run (Monolith.fetch models fuel name filter) w =
     run (Monolith.fetch models fuel name filter') w.
Proof.
  intros Hid.
  assert (Hid' : Monolith.filter_id filter = Monolith.filter_id filter')
    by now destruct filter, filter'.
  split; [now apply Monolith_buildQuery_filter|].
  rewrite !Monolith_fetch_query.
  now rewrite (Monolith_buildQuery_filter fuel name filter filter' Hid').
Qed.

(** X13. The [fetch] of the earlier revision: one query; when it is
    answered, one [insert] for each top-level field of the transformed
    answer, none of them awaited; when it is rejected or the answer cannot
    be transformed, the error and nothing dispatched. *)
Theorem Monolith_fetch_inserts_each_field (fuel : nat) (name : string)
    (filter : option object) (query : Document) (w : World) :
  Monolith.buildQuery models fuel name filter = Ok query ->
  (forall data stored,
      apollo_query query = Ok data ->
      Monolith.transformIncomingData data = Ok (VObj stored) ->
      run (Monolith.fetch models fuel name filter) w =
      (Ok tt,
       {| store := after_actions (store_actions "insert" stored) (store w);
          requests := requests w ++ [Query query];
          dispatched := dispatched w ++ store_actions "insert" stored |}))
  /\ (forall e,
        (data ← apollo_query query; Monolith.transformIncomingData data) = Throw e ->
        run (Monolith.fetch models fuel name filter) w =
        (Throw e,
         {| store := store w;
            requests := requests w ++ [Query query];
            dispatched := dispatched w |})).
Proof.
  intros Hquery. rewrite Monolith_fetch_query.
  rewrite run_bind. cbn [sync run]. rewrite Hquery.
  rewrite run_bind. unfold Monolith.apolloRequest.
  rewrite run_bind. cbn [await_query run]. split.
  - intros data stored Hdata Hstored. rewrite Hdata. cbn [sync run]. rewrite Hstored.
    unfold Monolith.storeData. rewrite run_bind. cbn [sync run Object_keys].
    now rewrite dispatch_each_run.
  - intros e Hfails.
    destruct (apollo_query query) as [data| |]; cbn in Hfails; try discriminate.
    + cbn [sync run]. now rewrite Hfails.
    + now injection Hfails as ->.
Qed.




End Actions.

Section ActionWitnesses.
Import Fixtures.

Lemma unknown_model_rejects_before_any_request_witness :
  run (VuexORMApollo.fetch (H := regular_nouns) (H1 := offline)
         (H2 := get_reads_property) (H3 := list_store)
         blog 1 "comments" (Some [("id", VNum 1)])) the_world
  = (Throw (Error "No such model undefined!"), the_world).
Proof.
  pose proof (@unknown_model_rejects_before_any_request
                regular_nouns source_text offline get_reads_property list_store
                blog named_mutation "comments" (VNum 1) None (Some [("id", VNum 1)])
                0 the_world
                ltac:(vm_compute; reflexivity)
                ltac:(intros a _; eexists; reflexivity))
    as (_ & _ & _ & Hfetch & _).
  exact Hfetch.
Defined.

Lemma nothing_to_save_sends_nothing_witness :
  run (VuexORMApollo.persist (H := regular_nouns) (H1 := offline) (H3 := list_store)
         blog named_mutation "users" (VNum 2)) the_world
  = (Ok None, the_world).
Proof.
  pose proof (@nothing_to_save_sends_nothing
                regular_nouns source_text offline list_store
                blog named_mutation "users" (VNum 2) (VNum 0)
                (new_Model (H := regular_nouns) User) the_world
                ltac:(vm_compute; reflexivity) ltac:(vm_compute; reflexivity)
                ltac:(reflexivity))
    as (Hpersist & _).
  exact Hpersist.
Defined.

Lemma fetch_stores_each_field_witness :
  dispatched
    (snd (run (VuexORMApollo.fetch (H := regular_nouns) (H1 := answering)
                 (H2 := get_reads_property) (H3 := list_store)
                 blog 3 "users" None) the_world))
  = [{| action_name := "insertOrUpdate";
        payload :=
          VObj [("data",
                 VArr [VObj [("id", VNum 1); ("name", VStr "Charlie Brown")];
                       VObj [("id", VNum 2); ("name", VStr "Peppermint Patty")]])] |}].
Proof.
  rewrite (@fetch_stores_each_field
             regular_nouns source_text answering get_reads_property list_store
             blog 3 "users" None _ _ _ the_world
             ltac:(vm_compute; reflexivity) ltac:(reflexivity)
             ltac:(vm_compute; reflexivity)).
  reflexivity.
Defined.

Lemma fetch_failure_stores_nothing_witness :
  dispatched
    (snd (run (VuexORMApollo.fetch (H := regular_nouns) (H1 := offline)
                 (H2 := get_reads_property) (H3 := list_store)
                 blog 3 "users" None) the_world))
  = []
  /\ fst (run (VuexORMApollo.fetch (H := regular_nouns) (H1 := offline)
                 (H2 := get_reads_property) (H3 := list_store)
                 blog 3 "users" None) the_world)
     = Throw (Rejected (VStr "Network error")).
Proof.
  rewrite (@fetch_failure_stores_nothing
             regular_nouns source_text offline get_reads_property list_store
             blog 3 "users" None _ (Rejected (VStr "Network error")) the_world
             ltac:(vm_compute; reflexivity) ltac:(reflexivity)).
  split; reflexivity.
Defined.

Lemma Monolith_filter_only_through_id_witness :
  Monolith.buildQuery (H := regular_nouns) (H0 := source_text) blog 3 "users"
    (Some [("active", VBool true)])
  = Monolith.buildQuery (H := regular_nouns) (H0 := source_text) blog 3 "users" None.
Proof.
  apply (@Monolith_filter_only_through_id
           regular_nouns source_text offline list_store blog 3 "users"
           (Some [("active", VBool true)]) None the_world).
  reflexivity.
Defined.

Lemma Monolith_fetch_inserts_each_field_witness :
  dispatched
    (snd (run (Monolith.fetch (H := regular_nouns) (H1 := answering) (H2 := list_store)
                 blog 3 "users" (Some [])) the_world))
  = [{| action_name := "insert";
        payload :=
          VObj [("data",
                 VArr [VObj [("id", VNum 1); ("name", VStr "Charlie Brown")];
                       VObj [("id", VNum 2); ("name", VStr "Peppermint Patty")]])] |}].
Proof.
  destruct (@Monolith_fetch_inserts_each_field
              regular_nouns source_text answering list_store
              blog 3 "users" (Some []) _ the_world
              ltac:(vm_compute; reflexivity)) as [Hanswered _].
  rewrite (Hanswered _ _ ltac:(reflexivity) ltac:(vm_compute; reflexivity)).
  reflexivity.
Defined.



End ActionWitnesses.

(** ** Reading back a printed id *)

Lemma parse_digits_printed (d : Decimal.uint) (acc : positive) :
  parse_digits 10 (NilEmpty.string_of_uint d) (Some (Z.pos acc)) =
  Some (Z.pos (Pos.of_uint_acc d acc)).
Proof.
  revert acc. induction d as [|d IH|d IH|d IH|d IH|d IH|d IH|d IH|d IH|d IH|d IH];
    intros acc; [reflexivity|..];
    cbn [NilEmpty.string_of_uint Pos.of_uint_acc parse_digits];
    change (digit_value _) with (Some 0%Z) || change (digit_value _) with (Some 1%Z)
    || change (digit_value _) with (Some 2%Z) || change (digit_value _) with (Some 3%Z)
    || change (digit_value _) with (Some 4%Z) || change (digit_value _) with (Some 5%Z)
    || change (digit_value _) with (Some 6%Z) || change (digit_value _) with (Some 7%Z)
    || change (digit_value _) with (Some 8%Z) || change (digit_value _) with (Some 9%Z);
    cbv iota beta; cbn [Z.ltb Z.compare Pos.compare Pos.compare_cont default from_option id];
    rewrite <- IH; do 2 f_equal; lia.
Qed.

Lemma parse_digits_leading (d : Decimal.uint) :
  parse_digits 10 (NilEmpty.string_of_uint d) (Some 0%Z) = Some (Z.of_N (Pos.of_uint d)).
Proof.
  induction d as [|d IH|d IH|d IH|d IH|d IH|d IH|d IH|d IH|d IH|d IH];
    [reflexivity | exact IH | ..];
    cbn [NilEmpty.string_of_uint Pos.of_uint]; apply parse_digits_printed.
Qed.

(** [parseInt] on the decimal digits of a number, with or without a
    sign in front. *)
Lemma parseInt_printed (d : Decimal.uint) :
  d <> Decimal.Nil ->
  parseInt (VStr (NilEmpty.string_of_uint d)) =
    VNum (to_double (Z.of_N (Pos.of_uint d)))
  /\ parseInt (VStr (String "-" (NilEmpty.string_of_uint d))) =
     VNum (to_double (- Z.of_N (Pos.of_uint d))).
Proof.
  intros Hd.
  assert (Hdigits :
    parse_digits 10 (NilEmpty.string_of_uint d) None = Some (Z.of_N (Pos.of_uint d))).
  { rewrite <- parse_digits_leading. now destruct d. }
  destruct d as [|d|d|d|d|d|d|d|d|d|d]; [contradiction|..];
    (split;
     [ destruct d; unfold parseInt;
       cbn [ToString NilEmpty.string_of_uint skip_spaces];
       change (is_space _) with false; cbv iota beta;
       cbn [NilEmpty.string_of_uint] in Hdigits; rewrite Hdigits; reflexivity
     | destruct d; unfold parseInt;
       cbn [ToString NilEmpty.string_of_uint skip_spaces];
       change (is_space _) with false; cbv iota beta;
       cbn [NilEmpty.string_of_uint] in Hdigits; rewrite Hdigits; reflexivity ]).
Qed.

Lemma parseInt_string_of_Z (n : Z) :
  parseInt (VStr (string_of_Z n)) = VNum (to_double n).
Proof.
  destruct n as [|p|p]; [reflexivity|..]; unfold string_of_Z;
    cbn [Z.to_int NilZero.string_of_int NilZero.string_of_uint];
    pose proof (Unsigned.to_uint_nonnil p) as Hnonnil;
    pose proof (Unsigned.of_to p) as Hback;
    destruct (parseInt_printed (Pos.to_uint p) Hnonnil) as [Hplus Hminus];
    rewrite Hback in Hplus, Hminus.
  - destruct (Pos.to_uint p); [contradiction|..]; exact Hplus.
  - destruct (Pos.to_uint p); [contradiction|..]; exact Hminus.
Qed.

(** An integer that a double holds for sure is read as it is. *)
Lemma to_double_exact (n : Z) :
  (Z.abs n <= 9007199254740992)%Z -> to_double n = n.
Proof.
  intros Hsafe. unfold to_double.
  apply Z.leb_le in Hsafe. now rewrite Hsafe.
Qed.

(** Past [2^53] the digits are rounded: of the two doubles next to
    [2^53 + 1] the even one is read. *)
Lemma parseInt_rounds_to_double :
  parseInt (VStr "9007199254740993") = VNum 9007199254740992
  /\ parseInt (VStr "-9007199254740995") = VNum (-9007199254740996)
  /\ parseInt (VStr "0x20000000000003") = VNum 9007199254740996.
Proof. repeat split; vm_compute; reflexivity. Qed.

Lemma string_of_Z_truthy (n : Z) : truthy (VStr (string_of_Z n)) = true.
Proof.
  destruct n as [|p|p]; [reflexivity|..]; unfold string_of_Z;
    cbn [Z.to_int NilZero.string_of_int NilZero.string_of_uint];
    [|reflexivity].
  pose proof (Unsigned.to_uint_nonnil p) as Hnonnil.
  destruct (Pos.to_uint p); [contradiction|..]; reflexivity.
Qed.

(** X16. An id the server prints in decimal is stored as the number it
    prints, for every integer up to [2^53] in size, which are the
    integers a double is sure to hold ([parseInt] rounds the others); an
    id of that range that arrives as a number is stored as it is, unless
    it is 0, which is taken for a missing property and dropped. *)
Theorem id_read_back `{Inflection} (n : Z) (recursiveCall : bool) :
  (Z.abs n <= 9007199254740992)%Z ->
  QueryBuilder.transformIncomingData (VObj [("id", VStr (string_of_Z n))]) recursiveCall
  = Ok (VObj [("id", VNum n)])
  /\ QueryBuilder.transformIncomingData (VObj [("id", VNum n)]) recursiveCall
     = Ok (VObj (if (n =? 0)%Z then [] else [("id", VNum n)])).
Proof.
  intros Hsafe. split.
  - cbn [QueryBuilder.transformIncomingData QueryBuilder.transformed_properties].
    rewrite string_of_Z_truthy. cbn [String.eqb Ascii.eqb Bool.eqb obj_set].
    now rewrite parseInt_string_of_Z, to_double_exact.
  - cbn [QueryBuilder.transformIncomingData QueryBuilder.transformed_properties truthy].
    destruct (n =? 0)%Z; cbn [negb]; [reflexivity|].
    cbn [String.eqb Ascii.eqb Bool.eqb obj_set].
    change (parseInt (VNum n)) with (parseInt (VStr (string_of_Z n))).
    now rewrite parseInt_string_of_Z, to_double_exact.
Qed.

Lemma id_read_back_witness :
  QueryBuilder.transformIncomingData (H := Fixtures.regular_nouns)
    (VObj [("id", VStr "-9007199254740992")]) false
  = Ok (VObj [("id", VNum (-9007199254740992))]).
Proof.
  apply (@id_read_back Fixtures.regular_nouns (-9007199254740992) false).
  vm_compute. discriminate.
Defined.

(** ** Loops that may throw *)

Lemma mapM_settles {A B : Type} (f : A -> outcome B) (l : list A) :
  (forall x, In x l -> returns_or_TypeError (f x)) ->
  returns_or_TypeError (mapM f l).
Proof.
  induction l as [|x l IH]; intros Hall; cbn [mapM].
  - left. now eexists.
  - destruct (Hall x) as [[y ->]| ->]; [now left | | now right].
    destruct IH as [[ys ->]| ->]; [intros y' Hy'; apply Hall; now right | |].
    + left. now eexists.
    + now right.
Qed.

Lemma mapM_throws {A B : Type} (f : A -> outcome B) (l : list A) (x : A) :
  (forall y, In y l -> returns_or_TypeError (f y)) ->
  In x l -> f x = Throw TypeError ->
  mapM f l = Throw TypeError.
Proof.
  induction l as [|y l IH]; intros Hall Hin Hx; [destruct Hin|]. cbn [mapM].
  destruct (Hall y) as [[b Hy]|Hy]; [now left | | now rewrite Hy].
  rewrite Hy. destruct Hin as [->|Hin]; [congruence|].
  cbn. rewrite IH; [reflexivity | | assumption..].
  intros z Hz. apply Hall. now right.
Qed.

Lemma mapM_returns {A B : Type} (f : A -> outcome B) (l : list A) :
  (forall x, In x l -> exists y, f x = Ok y) -> exists ys, mapM f l = Ok ys.
Proof.
  induction l as [|x l IH]; intros Hall; cbn [mapM]; [now eexists|].
  destruct (Hall x) as [y ->]; [now left|].
  destruct IH as [ys ->]; [intros y' Hy'; apply Hall; now right|].
  now eexists.
Qed.

(** ** Induction on payloads *)

Lemma value_deep_ind (P : value -> Prop) :
  (forall v, instanceof_Object v = false -> P v) ->
  (forall items, Forall P items -> P (VArr items)) ->
  (forall o, Forall (fun kv => P (snd kv)) o -> P (VObj o)) ->
  forall v, P v.
Proof.
  intros Hscalar Harr Hobj. fix IH 1.
  intros [| | | | | |items|o]; try (apply Hscalar; reflexivity).
  - apply Harr. induction items as [|x items IHitems]; constructor;
      [apply IH | exact IHitems].
  - apply Hobj. induction o as [|[k x] o IHo]; constructor; [apply IH | exact IHo].
Qed.

(** A property of payloads that holds of what an object holds under any
    key, besides the object. *)
Lemma value_parts_ind (P : value -> Prop) :
  P VUndefined ->
  (forall v, instanceof_Object v = false -> P v) ->
  (forall items, Forall P items -> P (VArr items)) ->
  (forall o,
      (forall k v, In (k, v) o -> P v /\ P (transformed_part v)) -> P (VObj o)) ->
  forall v, P v.
Proof.
  intros Hundefined Hscalar Harr Hobj v.
  enough (Hparts : P v /\ forall vo k, v = VObj vo -> P (obj_get vo k)) by apply Hparts.
  induction v as [v Hv|items IH|o IH] using value_deep_ind.
  - split; [now apply Hscalar|]. intros vo k ->. discriminate.
  - split; [|discriminate]. apply Harr.
    eapply Forall_impl; [exact IH|]. now intros x [Hx _].
  - assert (Hget : forall k, P (obj_get o k)).
    { intros k. induction o as [|[k' x] o IHo]; [exact Hundefined|].
      cbn [obj_get]. apply Forall_cons_iff in IH as [[Hx _] IH].
      destruct (String.eqb k' k); [exact Hx | now apply IHo]. }
    split; [|now intros vo k [= <-]].
    apply Hobj. intros k v Hin.
    rewrite List.Forall_forall in IH. destruct (IH (k, v) Hin) as [Hv Hparts].
    split; [exact Hv|].
    destruct v as [| | | | | |items|vo]; try exact Hv.
    cbn [transformed_part]. destruct (truthy (obj_get vo "nodes")); [|exact Hv].
    now apply Hparts.
Qed.

(** ** What the data transformer does to any payload *)

Section Payloads.
Context `{Inflection}.

(** One step of the loop over the properties of an object. *)
Lemma transformed_properties_cons (self : value -> bool -> outcome value)
    (key : string) (v : value) (entries result : object) :
  QueryBuilder.transformed_properties self ((key, v) :: entries) result =
  if truthy v then
    if instanceof_Object v then
      x ← self (transformed_part v) true;
      QueryBuilder.transformed_properties self entries
        (obj_set result (stored_key key v) x)
    else
      QueryBuilder.transformed_properties self entries
        (obj_set result key (snd (stored_scalar (key, v))))
  else QueryBuilder.transformed_properties self entries result.
Proof.
  cbn [QueryBuilder.transformed_properties].
  destruct (truthy v) eqn:Htruthy; [|reflexivity].
  destruct v as [| | | | | |items|vo];
    cbn [instanceof_Object stored_scalar fst snd transformed_part stored_key];
    try (now destruct (String.eqb key "id")).
  rewrite transformed_nodes_spec. now destruct (truthy (obj_get vo "nodes")).
Qed.

Lemma transformed_properties_settles (self : value -> bool -> outcome value)
    (entries : object) :
  (forall k v, In (k, v) entries ->
               returns_or_TypeError (self (transformed_part v) true)) ->
  forall result,
    returns_or_TypeError (QueryBuilder.transformed_properties self entries result).
Proof.
  induction entries as [|[key v] entries IH]; intros Hall result.
  - left. now eexists.
  - assert (IH' := IH (fun k x Hin => Hall k x (or_intror Hin))).
    rewrite transformed_properties_cons.
    destruct (truthy v); [|apply IH'].
    destruct (instanceof_Object v); [|apply IH'].
    destruct (Hall key v) as [[x ->]| ->]; [now left | apply IH' | now right].
Qed.

Lemma transformed_properties_returns (self : value -> bool -> outcome value)
    (entries : object) :
  (forall k v, In (k, v) entries -> truthy v = true ->
               exists r, self (transformed_part v) true = Ok r) ->
  forall result,
    exists r, QueryBuilder.transformed_properties self entries result = Ok r.
Proof.
  induction entries as [|[key v] entries IH]; intros Hall result.
  - now eexists.
  - assert (IH' := IH (fun k x Hin => Hall k x (or_intror Hin))).
    rewrite transformed_properties_cons.
    destruct (truthy v) eqn:Htruthy; [|apply IH'].
    destruct (instanceof_Object v); [|apply IH'].
    destruct (Hall key v) as [x ->]; [now left | assumption | apply IH'].
Qed.

Lemma transformIncomingData_settles (data : value) (recursiveCall : bool) :
  returns_or_TypeError (QueryBuilder.transformIncomingData data recursiveCall).
Proof.
  revert recursiveCall.
  induction data as [|v Hv|items IH|o IH] using value_parts_ind; intros recursiveCall.
  - now right.
  - destruct v; try discriminate; (now right) || (left; now eexists).
  - cbn [QueryBuilder.transformIncomingData].
    destruct (mapM_settles (fun d => QueryBuilder.transformIncomingData d true) items)
      as [[ys ->]| ->]; [| left; now eexists | now right].
    intros x Hx. rewrite List.Forall_forall in IH. now apply IH.
  - cbn [QueryBuilder.transformIncomingData].
    destruct (transformed_properties_settles
                (fun d r => QueryBuilder.transformIncomingData d r) o) with (result := @nil (string * value))
      as [[r ->]| ->]; [| left; now eexists | now right].
    intros k v Hin. now apply (IH k v Hin).
Qed.

(** X17. [transformIncomingData] ends on every payload, and when it does
    not return it throws a [TypeError] and nothing else.  It throws it
    for every list that holds [null] or [undefined], wherever in the
    list. *)
Theorem transformIncomingData_null_item_throws (recursiveCall : bool) :
  (forall data,
      returns_or_TypeError (QueryBuilder.transformIncomingData data recursiveCall))
  /\ (forall items x,
        In x items -> is_nullish x = true ->
        QueryBuilder.transformIncomingData (VArr items) recursiveCall = Throw TypeError).
Proof.
  split; [intros data; apply transformIncomingData_settles|].
  intros items x Hin Hnull. cbn [QueryBuilder.transformIncomingData].
  rewrite (mapM_throws (fun d => QueryBuilder.transformIncomingData d true) items x);
    [reflexivity | | assumption |].
  - intros y _. apply transformIncomingData_settles.
  - now destruct x.
Qed.

Lemma no_null_item_get (o : object) (k : string) :
  no_null_item (VObj o) = true -> no_null_item (obj_get o k) = true.
Proof.
  cbn [no_null_item]. induction o as [|[k' x] o IH]; cbn [forallb obj_get snd];
    [reflexivity|].
  intros Hall. apply andb_true_iff in Hall as [Hx Ho].
  destruct (String.eqb k' k); [exact Hx | now apply IH].
Qed.

(** X18. On a payload that is not [null] or [undefined] and in which no
    list holds [null] or [undefined], [transformIncomingData] returns. *)
Theorem transformIncomingData_returns (data : value) (recursiveCall : bool) :
  is_nullish data = false ->
  no_null_item data = true ->
  exists r, QueryBuilder.transformIncomingData data recursiveCall = Ok r.
Proof.
  revert recursiveCall.
  induction data as [|v Hv|items IH|o IH] using value_parts_ind;
    intros recursiveCall Hnull Hitems.
  - discriminate.
  - destruct v; try discriminate; now eexists.
  - cbn [QueryBuilder.transformIncomingData].
    destruct (mapM_returns (fun d => QueryBuilder.transformIncomingData d true) items)
      as [ys ->]; [|now eexists].
    intros x Hx. rewrite List.Forall_forall in IH.
    cbn [no_null_item] in Hitems. rewrite forallb_forall in Hitems.
    specialize (Hitems x Hx). apply andb_true_iff in Hitems as [Hx1 Hx2].
    apply IH; [assumption | now apply negb_true_iff | assumption].
  - cbn [QueryBuilder.transformIncomingData].
    destruct (transformed_properties_returns
                (fun d r => QueryBuilder.transformIncomingData d r) o)
      with (result := @nil (string * value)) as [r ->]; [|now eexists].
    intros k v Hin Htruthy. destruct (IH k v Hin) as [_ IHpart].
    assert (Hv : no_null_item v = true).
    { cbn [no_null_item] in Hitems. rewrite forallb_forall in Hitems.
      apply (Hitems (k, v) Hin). }
    apply IHpart.
    + destruct v as [| | | | | |l|vo]; try discriminate; try reflexivity.
      cbn [transformed_part]. destruct (truthy (obj_get vo "nodes")) eqn:Hnodes;
        [|reflexivity].
      now destruct (obj_get vo "nodes").
    + destruct v as [| | | | | |l|vo]; try assumption.
      cbn [transformed_part]. destruct (truthy (obj_get vo "nodes")); [|assumption].
      now apply no_null_item_get.
Qed.

(** X19. A connection is stored as the transformed list of its [nodes]
    under the plural of its key, and nothing else of it is read; any
    other object or list is stored transformed under the singular of its
    key. *)
Theorem connection_unwrapped (key : string) (v : value) (recursiveCall : bool) :
  truthy v = true ->
  instanceof_Object v = true ->
  QueryBuilder.transformIncomingData (VObj [(key, v)]) recursiveCall =
  (x ← QueryBuilder.transformIncomingData (transformed_part v) true;
   Ok (VObj [(stored_key key v, x)])).
Proof.
  intros Htruthy Hobject. cbn [QueryBuilder.transformIncomingData].
  rewrite transformed_properties_cons, Htruthy, Hobject.
  destruct (QueryBuilder.transformIncomingData (transformed_part v) true);
    reflexivity.
Qed.

Lemma obj_has_app (o o' : object) (k : string) :
  obj_has (o ++ o') k = obj_has o k || obj_has o' k.
Proof. unfold obj_has. apply existsb_app. Qed.

Lemma flat_properties (self : value -> bool -> outcome value) (entries : object) :
  (forall k v, In (k, v) entries -> instanceof_Object v = false) ->
  NoDup (map fst entries) ->
  forall result,
    (forall k, In k (map fst entries) -> obj_has result k = false) ->
    QueryBuilder.transformed_properties self entries result =
    Ok (result ++ map stored_scalar (List.filter (fun kv => truthy (snd kv)) entries)).
Proof.
  induction entries as [|[key v] entries IH]; intros Hflat Hnd result Hfresh.
  - cbn. now rewrite app_nil_r.
  - cbn [map fst] in Hnd. apply NoDup_cons in Hnd as [Hnotin Hnd].
    rewrite list_elem_of_In in Hnotin.
    assert (IH' := IH (fun k x Hin => Hflat k x (or_intror Hin)) Hnd).
    rewrite transformed_properties_cons. cbn [List.filter snd].
    rewrite (Hflat key v) by now left.
    destruct (truthy v).
    + rewrite obj_set_fresh by (apply Hfresh; now left).
      rewrite IH'.
      * cbn [map]. now rewrite <- app_assoc.
      * intros k Hk. rewrite obj_has_app, Hfresh by now right.
        unfold obj_has. cbn [existsb fst].
        destruct (String.eqb_spec key k) as [->|]; [contradiction | reflexivity].
    + apply IH'. intros k Hk. apply Hfresh. now right.
Qed.

(** X20. Of a record of scalars the properties that are truthy are
    stored, in order, the id as a number and the others as they are;
    [0], the empty string, [false], [null], [NaN] and [undefined] are
    dropped and never reach the store. *)
Theorem transformIncomingData_flat (o : object) (recursiveCall : bool) :
  NoDup (map fst o) ->
  (forall k v, In (k, v) o -> instanceof_Object v = false) ->
  QueryBuilder.transformIncomingData (VObj o) recursiveCall =
  Ok (VObj (map stored_scalar (List.filter (fun kv => truthy (snd kv)) o))).
Proof.
  intros Hnd Hflat. cbn [QueryBuilder.transformIncomingData].
  now rewrite (flat_properties _ o Hflat Hnd []).
Qed.

End Payloads.

Lemma transformIncomingData_returns_witness :
  exists r,
    QueryBuilder.transformIncomingData (H := Fixtures.regular_nouns)
      (VObj [("users", VObj [("nodes", VArr [VObj [("id", VStr "1")]]);
                             ("totalCount", VNull)])])
      false = Ok r.
Proof.
  apply (@transformIncomingData_returns Fixtures.regular_nouns); reflexivity.
Defined.

Lemma connection_unwrapped_witness :
  QueryBuilder.transformIncomingData (H := Fixtures.regular_nouns)
    (VObj [("user", VObj [("nodes", VArr [VObj [("id", VStr "1")]]);
                          ("totalCount", VNum 1)])])
    false
  = Ok (VObj [("users", VArr [VObj [("id", VNum 1)]])]).
Proof.
  rewrite (@connection_unwrapped Fixtures.regular_nouns "user"
             (VObj [("nodes", VArr [VObj [("id", VStr "1")]]); ("totalCount", VNum 1)])
             false ltac:(reflexivity) ltac:(reflexivity)).
  reflexivity.
Defined.

Lemma transformIncomingData_flat_witness :
  QueryBuilder.transformIncomingData (H := Fixtures.regular_nouns)
    (VObj [("id", VStr "15"); ("name", VStr "Charlie Brown"); ("age", VNum 0);
           ("nickname", VStr ""); ("active", VBool false); ("email", VNull)])
    false
  = Ok (VObj [("id", VNum 15); ("name", VStr "Charlie Brown")]).
Proof.
  rewrite (@transformIncomingData_flat Fixtures.regular_nouns).
  - reflexivity.
  - cbn. repeat constructor; rewrite list_elem_of_In; cbn; intuition discriminate.
  - intros k v Hin. cbn in Hin.
    repeat (destruct Hin as [[= <- <-]|Hin]; [reflexivity|]). destruct Hin.
Defined.

(** ** The argument formatter, mode by mode *)

Lemma mapM_each_returns {A B : Type} (f : A -> outcome B) (g : A -> B) (l : list A) :
  (forall x, In x l -> f x = Ok (g x)) -> mapM f l = Ok (map g l).
Proof.
  induction l as [|x l IH]; intros Hall; cbn [mapM map]; [reflexivity|].
  rewrite Hall by now left. rewrite IH by (intros y Hy; apply Hall; now right).
  reflexivity.
Qed.

(** The clause of a map whose entries are known. *)
Lemma buildArguments_entries (args : object) (signature valuesAsVariables : bool)
    (entry : string -> string) :
  (forall key, In key (written_keys args) ->
               argument_entry args signature valuesAsVariables key = Ok (entry key)) ->
  QueryBuilder.buildArguments (Some args) signature valuesAsVariables =
  Ok (clause (map entry (written_keys args))).
Proof.
  intros Hentries. unfold QueryBuilder.buildArguments. rewrite buildArguments_loop.
  fold (written_keys args).
  rewrite (mapM_each_returns _ entry) by assumption. cbn.
  rewrite <- written_clause. now destruct (written _ _).
Qed.

Lemma written_keys_kept (args : object) (key : string) :
  In key (written_keys args) ->
  negb (instanceof_Array (obj_get args key) || String.eqb key "id") = true.
Proof. unfold written_keys. rewrite filter_In. tauto. Qed.

(** X21. With variables for values, [buildArguments] never throws: it
    writes [key: $key] for every key that is not [id] and holds no array,
    whatever the values are. *)
Theorem buildArguments_variable_references (args : object) :
  QueryBuilder.buildArguments (Some args) false true =
  Ok (clause (map variable_entry (written_keys args))).
Proof.
  apply buildArguments_entries. intros key Hkey.
  unfold argument_entry, QueryBuilder.buildArguments_step.
  rewrite (written_keys_kept args key Hkey). reflexivity.
Qed.

(** X22. Of arguments that are no objects, a signature declares the
    numbers as [Number!] and everything else, booleans too, as
    [String!]; written out, numbers stand as they print and every other
    value between double quotes, as it prints and with no character
    escaped. *)
Theorem buildArguments_of_scalars (args : object) (valuesAsVariables : bool) :
  (forall key, In key (written_keys args) -> typeof (obj_get args key) <> "object") ->
  QueryBuilder.buildArguments (Some args) true valuesAsVariables =
    Ok (clause (map (signature_entry args) (written_keys args)))
  /\ QueryBuilder.buildArguments (Some args) false false =
    Ok (clause (map (literal_entry args) (written_keys args))).
Proof.
  intros Hscalars. split; apply buildArguments_entries; intros key Hkey;
    unfold argument_entry, QueryBuilder.buildArguments_step, QueryBuilder.object_type;
    rewrite (written_keys_kept args key Hkey);
    specialize (Hscalars key Hkey); apply String.eqb_neq in Hscalars;
    rewrite Hscalars; cbn [mbind outcome_bind truthy fmap outcome_fmap fst];
    unfold signature_entry, literal_entry;
    destruct (String.eqb (typeof (obj_get args key)) "number"); reflexivity.
Qed.

Lemma argument_entry_settles (args : object) (signature valuesAsVariables : bool)
    (key : string) :
  returns_or_TypeError (argument_entry args signature valuesAsVariables key).
Proof.
  unfold argument_entry, QueryBuilder.buildArguments_step, QueryBuilder.object_type.
  destruct (negb _); [|left; now eexists].
  destruct signature, valuesAsVariables, (obj_get args key) as [| | | | | |items|o];
    cbn; try (now right); try (left; now eexists);
    match goal with
    | |- context [truthy ?v] => destruct (truthy v)
    end; cbn; left; now eexists.
Qed.

(** X23. An argument that holds [null] makes [buildArguments] throw a
    [TypeError] in a signature and when values are written out: [null] is
    an object to [typeof], and its [__type] is read. *)
Theorem buildArguments_null_argument_throws (args : object) (key : string)
    (signature valuesAsVariables : bool) :
  In key (map fst args) ->
  key <> "id" ->
  obj_get args key = VNull ->
  signature = true \/ valuesAsVariables = false ->
  QueryBuilder.buildArguments (Some args) signature valuesAsVariables = Throw TypeError.
Proof.
  intros Hin Hid Hnull Hmode.
  unfold QueryBuilder.buildArguments. rewrite buildArguments_loop.
  fold (written_keys args).
  rewrite (mapM_throws _ (written_keys args) key); [reflexivity | | |].
  - intros k _. apply argument_entry_settles.
  - unfold written_keys. apply filter_In. split; [assumption|].
    rewrite Hnull. apply String.eqb_neq in Hid. now rewrite Hid.
  - unfold argument_entry, QueryBuilder.buildArguments_step, QueryBuilder.object_type.
    rewrite Hnull. apply String.eqb_neq in Hid. rewrite Hid.
    destruct Hmode as [-> | ->]; [reflexivity|]. now destruct signature.
Qed.

Lemma buildArguments_of_scalars_witness :
  QueryBuilder.buildArguments (Some [("active", VBool true); ("age", VNum 7)]) true false
  = Ok "($active: String!, $age: Number!)".
Proof.
  destruct (buildArguments_of_scalars [("active", VBool true); ("age", VNum 7)] false)
    as [Hsignature _].
  - intros key [<-|[<-|[]]]; discriminate.
  - rewrite Hsignature. reflexivity.
Defined.

Lemma buildArguments_null_argument_throws_witness :
  QueryBuilder.buildArguments (Some [("name", VStr "Charlie Brown"); ("email", VNull)])
    true false
  = Throw TypeError.
Proof.
  apply (buildArguments_null_argument_throws
           [("name", VStr "Charlie Brown"); ("email", VNull)] "email" true false).
  - cbn. auto.
  - discriminate.
  - reflexivity.
  - now left.
Defined.

(** ** The walk ends exactly when the query is built *)

Section WalkEnds.
Variable getModel : Model + string -> outcome Model.

Lemma relations_each_returned
    (buildField : Model + string -> bool -> option object -> bool ->
                  option Model -> option string -> outcome string)
    (m : Model) (rootModel : option Model) (relations : list (string * Field)) :
  forall acc queries,
    forEach
      (fun relationQueries (kv : string * Field) =>
         let '(name, field) := kv in
         if follows rootModel name then
           let multiple := negb (String.eqb (constructor_name field) "BelongsTo") in
           q ← buildField (inr name) multiple None false
                 (Some (default m rootModel)) None;
           Ok (relationQueries ++ [q])
         else Ok relationQueries)
      relations acc = Ok queries ->
    forall name field,
      In (name, field) relations -> follows rootModel name = true ->
      exists q,
        buildField (inr name) (negb (String.eqb (constructor_name field) "BelongsTo"))
          None false (Some (default m rootModel)) None = Ok q.
Proof.
  induction relations as [|[n f] relations IH]; intros acc queries Hloop name field Hin Hfollows;
    [destruct Hin|].
  cbn [forEach] in Hloop.
  destruct (follows rootModel n) eqn:Hn.
  - destruct (buildField (inr n) _ None false _ None) as [q| |] eqn:Hq;
      cbn in Hloop; try discriminate.
    destruct Hin as [[= <- <-]|Hin]; [now exists q|].
    now apply (IH _ _ Hloop).
  - cbn in Hloop. destruct Hin as [[= <- <-]|Hin]; [congruence|].
    now apply (IH _ _ Hloop).
Qed.

Lemma buildField_built (fuel : nat) :
  forall model multiple args withVars rootModel name text,
    QueryBuilder.buildField getModel fuel model multiple args withVars rootModel name
    = Ok text ->
    builds getModel rootModel model.
Proof.
  induction fuel as [|fuel IH];
    intros model multiple args withVars rootModel name text Hfield; [discriminate|].
  rewrite buildField_step in Hfield.
  destruct (getModel model) as [m| |] eqn:Hmodel; cbn in Hfield; try discriminate.
  destruct (QueryBuilder.buildArguments args false withVars); cbn in Hfield;
    try discriminate.
  destruct (QueryBuilder.buildRelationsQuery getModel fuel m rootModel)
    as [relations| |] eqn:Hrelations; cbn in Hfield; try discriminate.
  apply (builds_model getModel rootModel model m Hmodel).
  intros n f Hin Hfollows.
  destruct (relations_each_returned (QueryBuilder.buildField getModel fuel) m rootModel
              (getRelations m) [] relations Hrelations n f Hin Hfollows) as [q Hq].
  now apply (IH _ _ _ _ _ _ _ Hq).
Qed.

(** X24. [buildField] returns, given fuel enough, exactly for the models
    from which the walk through the relations ends: the model is
    registered, and so is every model the walk comes to through
    relations not named after the root, none of them without end.  From
    any other model it throws or does not return. *)
Theorem buildField_returns_iff_walk_ends (rootModel : option Model)
    (model : Model + string) (multiple : bool) (name : option string) :
  builds getModel rootModel model <->
  exists fuel text,
    QueryBuilder.buildField getModel fuel model multiple None false rootModel name
    = Ok text.
Proof.
  split.
  - intros Hbuilds.
    destruct (buildField_returns getModel rootModel model Hbuilds multiple None false
                name EmptyString eq_refl) as (fuel0 & text & Htext).
    exists fuel0, text. now apply Htext.
  - intros (fuel & text & Htext). now apply (buildField_built fuel _ _ _ _ _ _ _ Htext).
Qed.

End WalkEnds.
